(** * Visual snapshot verifier of the Storybook test runner

    A shallow embedding of [.storybook/test-runner.ts] (the snapshot
    verification run after each story is visited) and of the [webpackFinal]
    hook of the Storybook main configuration, with the properties of the
    written specification stated and settled against them. *)

From Stdlib Require Import ZArith QArith Lia String Ascii List.
From stdpp Require Import base strings list gmap.

Local Open Scope string_scope.

(** ** Names of browsers and themes *)

(** [type SupportedBrowserName = 'chromium' | 'webkit'] *)
Inductive SupportedBrowserName := chromium | webkit.

(** [type SnapshotTheme = 'legacy' | 'light' | 'dark'] *)
Inductive SnapshotTheme := legacy | light | dark.

Definition browserName (b : SupportedBrowserName) : string :=
  match b with chromium => "chromium" | webkit => "webkit" end.

Definition themeName (t : SnapshotTheme) : string :=
  match t with legacy => "legacy" | light => "light" | dark => "dark" end.

Global Instance SupportedBrowserName_eq_dec : EqDecision SupportedBrowserName.
Proof. solve_decision. Defined.

Global Instance SnapshotTheme_eq_dec : EqDecision SnapshotTheme.
Proof. solve_decision. Defined.

(** ** The snapshot identifier

    Lines 303-309 of [expectLocatorToMatchStorySnapshot]: the identifier
    starts as [context.id]; [--theme] is appended unless the theme is
    ['legacy'], then [--browser] unless the browser is ['chromium']. *)
Definition customSnapshotIdentifier
    (id : string) (theme : SnapshotTheme) (browser : SupportedBrowserName) : string :=
  let ident := id in
  let ident :=
    if decide (theme <> legacy) then ident +:+ "--" +:+ themeName theme else ident in
  let ident :=
    if decide (browser <> chromium) then ident +:+ "--" +:+ browserName browser else ident in
  ident.

(** ** Story parameters *)

(** [Parameters.testOptions]; every field is optional in the source. *)
Record TestOptions := {
  waitForLoadersToDisappear : option bool;
  waitForSelector : option string;
  excludeNavigationFromSnapshot : option bool;
  snapshotBrowsers : option (list SupportedBrowserName);
  snapshotTargetSelector : option string;
}.

Record Parameters := {
  layout : option string;
  testOptions : option TestOptions;
}.

Record StoryContext := { parameters : option Parameters }.

(** The test context of the runner; [context.id] is all the verifier reads. *)
Record TestContext := { context_id : string }.

(** [storyContext.parameters?.testOptions ?? {}] *)
Definition emptyTestOptions : TestOptions :=
  {| waitForLoadersToDisappear := None; waitForSelector := None;
     excludeNavigationFromSnapshot := None; snapshotBrowsers := None;
     snapshotTargetSelector := None |}.

Definition testOptionsOf (storyContext : StoryContext) : TestOptions :=
  match parameters storyContext with
  | Some p => match testOptions p with Some o => o | None => emptyTestOptions end
  | None => emptyTestOptions
  end.

(** [storyContext.parameters?.layout] *)
Definition layoutOf (storyContext : StoryContext) : option string :=
  match parameters storyContext with Some p => layout p | None => None end.

(** [storyContext.parameters?.testOptions?.snapshotTargetSelector] *)
Definition snapshotTargetSelectorOf (storyContext : StoryContext) : option string :=
  match parameters storyContext with
  | Some p => match testOptions p with
              | Some o => snapshotTargetSelector o
              | None => None
              end
  | None => None
  end.

(** ** Constants of the runner *)

Definition RETRY_TIMES : nat := 3.
Definition JEST_TIMEOUT_MS : nat := 15000.
Definition PLAYWRIGHT_TIMEOUT_MS : nat := 10000.

(** The double-quote character, for the attribute selector below. *)
Definition dquote : ascii := ascii_of_nat 34.

Definition LOADER_SELECTORS : list string :=
  [ ".ant-skeleton";
    ".Spinner";
    ".LemonSkeleton";
    ".LemonTableLoader";
    ".Toastify__toast-container";
    "[aria-busy=" +:+ String dquote ("true" +:+ String dquote "]");
    ".SessionRecordingPlayer--buffering";
    ".Lettermark--unknown" ].

(** [Array.prototype.join] *)
Fixpoint join (sep : string) (parts : list string) : string :=
  match parts with
  | [] => ""
  | [s] => s
  | s :: rest => s +:+ sep +:+ join sep rest
  end.

(** ** The document

    The part of the DOM the verifier reads and writes.  Elements live in a
    list and are referred to by their position in it, so that a script
    holding [rootEl] and a node of a [querySelectorAll] result reads the
    current state of both.  Lengths are CSS pixels, taken as integers;
    time is in milliseconds. *)

Module DOMRect.
Record t := { left : Z; top : Z; right : Z; bottom : Z }.
End DOMRect.

(** The inline style properties the verifier assigns through [el.style]. *)
Record Style := {
  display : option string;
  width : option Z;
  height : option Z;
}.

Record Element := {
  tagName : string;                    (* local name, lower case *)
  elementId : option string;           (* the id attribute *)
  classList : list string;
  attributes : gmap string string;     (* the other attributes, by name *)
  style : Style;
  offsetLeft : Z;                      (* where layout puts the box *)
  offsetTop : Z;
  contentWidth : Z;                    (* its size when no inline size is set *)
  contentHeight : Z;
  complete : option nat;               (* for an img: when it has loaded *)
  attachedAt : nat;                    (* in the document from this time *)
  detachedAt : option nat;             (* and until this one, if any *)
}.

Record Body := {
  bodyClassList : list string;
  bodyAttributes : gmap string string;
  bodyBackground : option string;
}.

(** The page under test: a clock, what the environment will do (when the
    page becomes ready, when nodes come and go) and the document. *)
Record Page := {
  clock : nat;
  defaultTimeout : nat;
  readyAt : option nat;
  elements : list Element;
  body : Body;
}.

(** [el.getBoundingClientRect()].  The layout engine of the browser is not
    part of the sources; the box is taken as follows: it starts where the
    element records it ([offsetLeft], [offsetTop]), and an inline [width] or
    [height] replaces the recorded size of its content.  The box does not
    depend on [display], and assigning a size moves no origin: a layout that
    re-centres a resized element, or a block-level element that shrinks when
    it is made an inline block, is not described.  Statements below are
    about the boxes the script reads and the sizes it assigns; they name the
    document in which a box is read. *)
Definition getBoundingClientRect (el : Element) : DOMRect.t :=
  {| DOMRect.left := offsetLeft el;
     DOMRect.top := offsetTop el;
     DOMRect.right := offsetLeft el + default (contentWidth el) (width (style el));
     DOMRect.bottom := offsetTop el + default (contentHeight el) (height (style el)) |}.

Definition attached (t : nat) (el : Element) : bool :=
  (attachedAt el <=? t)%nat
  && match detachedAt el with Some d => (t <? d)%nat | None => true end.

(** *** Selectors

    The selector engine of the browser is not part of the sources.  The
    selectors the source writes are simple ones: a type selector, [.class],
    [#id], [[attr="value"]], and comma-separated lists of these without
    spaces; these are read as the browser reads them.  A string outside this
    fragment (a compound selector such as [div.chart], a combinator, a space
    after a comma) is not interpreted: it is read as a type selector of that
    very name, which is not what the browser does with it.  A statement
    about every selector string is therefore made for the strings of the
    fragment, [supportedSelector] below. *)
Inductive SimpleSelector :=
| SelType (name : string)
| SelClass (name : string)
| SelId (name : string)
| SelAttr (name value : string)
| SelInvalid.

(** [s] up to the first [c], and what follows that [c]. *)
Fixpoint splitAt (c : ascii) (s : string) : option (string * string) :=
  match s with
  | EmptyString => None
  | String a rest =>
      if decide (a = c) then Some (EmptyString, rest)
      else match splitAt c rest with
           | Some (before, after) => Some (String a before, after)
           | None => None
           end
  end.

Fixpoint splitAll_go (fuel : nat) (c : ascii) (s : string) : list string :=
  match fuel with
  | O => [s]
  | S fuel =>
      match splitAt c s with
      | Some (before, after) => before :: splitAll_go fuel c after
      | None => [s]
      end
  end.

Definition splitAll (c : ascii) (s : string) : list string :=
  splitAll_go (String.length s) c s.

Definition parseAttribute (s : string) : SimpleSelector :=
  match splitAt "=" s with
  | Some (name, String q rest) =>
      if decide (q = dquote) then
        match splitAt dquote rest with
        | Some (value, "]") => SelAttr name value
        | _ => SelInvalid
        end
      else SelInvalid
  | _ => SelInvalid
  end.

Definition parseSimple (s : string) : SimpleSelector :=
  match s with
  | EmptyString => SelInvalid
  | String "." name => SelClass name
  | String "#" name => SelId name
  | String "[" rest => parseAttribute rest
  | _ => SelType s
  end.

Definition parseSelector (s : string) : list SimpleSelector :=
  parseSimple <$> splitAll "," s.

Definition asciiLower (a : ascii) : ascii :=
  let n := nat_of_ascii a in
  if ((65 <=? n) && (n <=? 90))%nat then ascii_of_nat (n + 32) else a.

Fixpoint toLowerCase (s : string) : string :=
  match s with
  | EmptyString => EmptyString
  | String a rest => String (asciiLower a) (toLowerCase rest)
  end.

Definition matchesSimple (el : Element) (sel : SimpleSelector) : bool :=
  match sel with
  | SelType name => bool_decide (toLowerCase name = tagName el)
  | SelClass name => bool_decide (name ∈ classList el)
  | SelId name => bool_decide (elementId el = Some name)
  | SelAttr name value => bool_decide (attributes el !! name = Some value)
  | SelInvalid => false
  end.

Definition matches (selector : string) (el : Element) : bool :=
  existsb (matchesSimple el) (parseSelector selector).

(** *** Updating elements and the page *)

Definition withStyle (f : Style -> Style) (el : Element) : Element :=
  {| tagName := tagName el; elementId := elementId el; classList := classList el;
     attributes := attributes el; style := f (style el);
     offsetLeft := offsetLeft el; offsetTop := offsetTop el;
     contentWidth := contentWidth el; contentHeight := contentHeight el;
     complete := complete el; attachedAt := attachedAt el;
     detachedAt := detachedAt el |}.

Definition withAttributes (f : gmap string string -> gmap string string)
    (el : Element) : Element :=
  {| tagName := tagName el; elementId := elementId el; classList := classList el;
     attributes := f (attributes el); style := style el;
     offsetLeft := offsetLeft el; offsetTop := offsetTop el;
     contentWidth := contentWidth el; contentHeight := contentHeight el;
     complete := complete el; attachedAt := attachedAt el;
     detachedAt := detachedAt el |}.

(** [el.style.display = v], [el.style.width = `${v}px`],
    [el.style.height = `${v}px`] *)
Definition setDisplay (v : string) (s : Style) : Style :=
  {| display := Some v; width := width s; height := height s |}.
Definition setWidth (v : Z) (s : Style) : Style :=
  {| display := display s; width := Some v; height := height s |}.
Definition setHeight (v : Z) (s : Style) : Style :=
  {| display := display s; width := width s; height := Some v |}.

(** [el.setAttribute(name, value)].  Attributes are kept by name, apart from
    the inline style properties assigned through [el.style]: setting the
    [style] attribute records the new attribute text and leaves the [Style]
    record, where the DOM would also drop the inline properties the text
    does not mention. *)
Definition setAttribute (name value : string) (el : Element) : Element :=
  withAttributes (fun attrs => <[name := value]> attrs) el.

Definition withClock (t : nat) (p : Page) : Page :=
  {| clock := t; defaultTimeout := defaultTimeout p; readyAt := readyAt p;
     elements := elements p; body := body p |}.

Definition withDefaultTimeout (ms : nat) (p : Page) : Page :=
  {| clock := clock p; defaultTimeout := ms; readyAt := readyAt p;
     elements := elements p; body := body p |}.

Definition withElements (f : list Element -> list Element) (p : Page) : Page :=
  {| clock := clock p; defaultTimeout := defaultTimeout p; readyAt := readyAt p;
     elements := f (elements p); body := body p |}.

Definition withBody (f : Body -> Body) (p : Page) : Page :=
  {| clock := clock p; defaultTimeout := defaultTimeout p; readyAt := readyAt p;
     elements := elements p; body := f (body p) |}.

(** [DOMTokenList.add]: a class already present is not added again. *)
Definition addClass (c : string) (b : Body) : Body :=
  {| bodyClassList :=
       if decide (c ∈ bodyClassList b) then bodyClassList b
       else (bodyClassList b ++ [c])%list;
     bodyAttributes := bodyAttributes b;
     bodyBackground := bodyBackground b |}.

Definition setBodyAttribute (name value : string) (b : Body) : Body :=
  {| bodyClassList := bodyClassList b;
     bodyAttributes := <[name := value]> (bodyAttributes b);
     bodyBackground := bodyBackground b |}.

Definition setBackground (v : string) (b : Body) : Body :=
  {| bodyClassList := bodyClassList b;
     bodyAttributes := bodyAttributes b;
     bodyBackground := Some v |}.

(** *** Queries

    A query sees the elements attached at the time it runs and answers with
    their positions in the element list, in document order. *)
Fixpoint findIndices_go (f : Element -> bool) (i : nat) (els : list Element) : list nat :=
  match els with
  | [] => []
  | el :: rest =>
      if f el then i :: findIndices_go f (S i) rest else findIndices_go f (S i) rest
  end.

Definition findIndices (f : Element -> bool) (els : list Element) : list nat :=
  findIndices_go f 0 els.

Definition querySelectorAllAt (t : nat) (selector : string) (els : list Element) : list nat :=
  findIndices (fun el => attached t el && matches selector el) els.

Definition querySelectorAll (selector : string) (p : Page) : list nat :=
  querySelectorAllAt (clock p) selector (elements p).

Definition querySelector (selector : string) (p : Page) : option nat :=
  head (querySelectorAll selector p).

Definition getElementById (id : string) (p : Page) : option nat :=
  head (findIndices
          (fun el => attached (clock p) el && bool_decide (elementId el = Some id))
          (elements p)).

(** ** The overlay expansion of component mode

    The body of the [forEach] over the [.Popover] nodes (lines 256-271):
    both boxes are read first, then up to four assignments to the inline
    size of the root element are made, in the order of the source. *)
Definition expandRootFor (rootEl popover : nat) (els : list Element) : list Element :=
  match els !! rootEl, els !! popover with
  | Some root, Some pop =>
      let currentRootBoundingClientRect := getBoundingClientRect root in
      let popoverBoundingClientRect := getBoundingClientRect pop in
      let els :=
        if (DOMRect.right popoverBoundingClientRect
            >? DOMRect.right currentRootBoundingClientRect)%Z
        then alter (withStyle (setWidth (DOMRect.right popoverBoundingClientRect)))
                   rootEl els
        else els in
      let els :=
        if (DOMRect.bottom popoverBoundingClientRect
            >? DOMRect.bottom currentRootBoundingClientRect)%Z
        then alter (withStyle (setHeight (DOMRect.bottom popoverBoundingClientRect)))
                   rootEl els
        else els in
      let els :=
        if (DOMRect.top popoverBoundingClientRect
            <? DOMRect.top currentRootBoundingClientRect)%Z
        then alter (withStyle (setHeight (- DOMRect.top popoverBoundingClientRect
                                          + DOMRect.bottom currentRootBoundingClientRect)))
                   rootEl els
        else els in
      let els :=
        if (DOMRect.left popoverBoundingClientRect
            <? DOMRect.left currentRootBoundingClientRect)%Z
        then alter (withStyle (setWidth (- DOMRect.left popoverBoundingClientRect
                                         + DOMRect.right currentRootBoundingClientRect)))
                   rootEl els
        else els in
      els
  | _, _ => els
  end.

(** [popovers.forEach(...)], as a fold over the element list. *)
Definition expandRoot (rootEl : nat) (popovers : list nat) (els : list Element)
    : list Element :=
  fold_left (fun els popover => expandRootFor rootEl popover els) popovers els.

(** ** The runner

    The verifier drives a page through the browser-automation API, records
    what it asks for, and fails by throwing. *)

Inductive Error :=
| TimeoutError (what : string)
| JsError (message : string)
| StrictModeViolation (selector : string)
| SnapshotMismatch (identifier : string).

Inductive Outcome (A : Type) :=
| Returned (a : A)
| Thrown (e : Error).
Arguments Returned {A} a.
Arguments Thrown {A} e.

(** What is captured: the page, or the element a locator resolves to. *)
Inductive Target :=
| ThePage
| TheLocator (selector : string).

(** [LocatorScreenshotOptions], as far as the verifier sets them. *)
Record ScreenshotOptions := { omitBackground : option bool }.

(** What the verifier did to the page and asked of its collaborators, in
    order. *)
Inductive Event :=
| ClassListAdd (className : string)
| BodySetAttribute (name value : string)
| Screenshot (target : Target) (options : ScreenshotOptions)
| ToMatchImageSnapshot (identifier : string).

Global Instance Target_eq_dec : EqDecision Target.
Proof. solve_decision. Defined.

Global Instance ScreenshotOptions_eq_dec : EqDecision ScreenshotOptions.
Proof. solve_decision. Defined.

Global Instance Event_eq_dec : EqDecision Event.
Proof. solve_decision. Defined.

(** [cond] is tried at [from], [from + 1], ..., [from + budget]. *)
Fixpoint firstTime (cond : nat -> bool) (from budget : nat) : option nat :=
  if cond from then Some from
  else match budget with
       | O => None
       | S budget => firstTime cond (S from) budget
       end.

(** [jest-image-snapshot] options, as the verifier passes them. *)
Inductive ComparisonMethod := pixelmatch | ssim.
Inductive FailureThresholdType := pixel | percent.

Record MatchImageSnapshotOptions := {
  customSnapshotsDir : string;
  customSnapshotIdentifierOption : string;
  comparisonMethod : ComparisonMethod;
  failureThreshold : Q;
  failureThresholdType : FailureThresholdType;
}.

Section Runner.

(** The images the browser produces and the store keeps are not looked
    into. *)
Context {Image : Type}.

Record World := {
  page : Page;
  snapshots : gmap string Image;       (* the stored references, by identifier *)
  events : list Event;
}.

Definition M (A : Type) : Type := World -> Outcome A * World.

Definition ret {A} (a : A) : M A := fun w => (Returned a, w).

Definition bind {A B} (m : M A) (k : A -> M B) : M B :=
  fun w => match m w with
           | (Returned a, w') => k a w'
           | (Thrown e, w') => (Thrown e, w')
           end.

Definition throw {A} (e : Error) : M A := fun w => (Thrown e, w).

Definition getPage : M Page := fun w => (Returned (page w), w).

Definition modifyPage (f : Page -> Page) : M unit :=
  fun w => (Returned tt,
            {| page := f (page w); snapshots := snapshots w; events := events w |}).

Definition emit (e : Event) : M unit :=
  fun w => (Returned tt,
            {| page := page w; snapshots := snapshots w;
               events := (events w ++ [e])%list |}).

Definition storeSnapshot (identifier : string) (image : Image) : M unit :=
  fun w => (Returned tt,
            {| page := page w; snapshots := <[identifier := image]> (snapshots w);
               events := events w |}).

Definition getSnapshot (identifier : string) : M (option Image) :=
  fun w => (Returned (snapshots w !! identifier), w).

End Runner.

Arguments World : clear implicits.
Arguments M : clear implicits.

Global Instance M_ret {Image} : MRet (M Image) := fun A => @ret Image A.
Global Instance M_bind {Image} : MBind (M Image) := fun A B k m => @bind Image A B m k.

Section Verifier.

Context {Image : Type}.

(** [render] is the picture the browser takes of a target on a page;
    [dissimilarity] is how much of an image a comparison method finds
    different from a stored reference, in the unit of the threshold type
    (a share of the image for [percent]). *)
Variable render : Target -> ScreenshotOptions -> Page -> Image.
Variable dissimilarity :
  ComparisonMethod -> FailureThresholdType -> Image -> Image -> Q.

(** [process.cwd()] *)
Variable cwd : string.

Local Abbreviation M := (M Image).

(** *** The browser-automation API *)

(** A bounded wait: the clock moves to the first moment at which [cond]
    holds; when there is none within [timeout], the wait throws. *)
Definition waitUntil (what : string) (timeout : nat) (cond : nat -> Page -> bool)
    : M unit :=
  p ← getPage;
  match firstTime (fun t => cond t p) (clock p) timeout with
  | Some t => modifyPage (withClock t)
  | None => modifyPage (withClock (clock p + timeout));; throw (TimeoutError what)
  end.

(** Modelled from the spec: [waitForPageReady(page)] of the test-runner
    package, which the sources only call.  Section 4.1: a wait for a page
    ready signal that fails the verification when it exceeds its bound.  It
    is taken as one bounded wait for the instant [readyAt] within the
    default timeout; the package's own sequence of waits, each with its
    budget, is not described, so nothing below should be read as the exact
    moment at which the package gives up. *)
Definition waitForPageReady : M unit :=
  p ← getPage;
  waitUntil "waitForPageReady" (defaultTimeout p)
    (fun t p => match readyAt p with Some r => (r <=? t)%nat | None => false end).

Inductive SelectorState := stateVisible | stateDetached.

(** [page.waitForSelector(selector, { state, timeout })] of the
    browser-automation package; without options the state is ['visible']
    and the timeout the default one.  Visibility is not described: the
    state ['visible'] is satisfied by an attached match, where the package
    also asks for a box that is not empty. *)
Definition page_waitForSelector (selector : string) (state : SelectorState)
    (timeout : option nat) : M unit :=
  p ← getPage;
  waitUntil "waitForSelector" (default (defaultTimeout p) timeout)
    (fun t p =>
       match state with
       | stateVisible => bool_decide (querySelectorAllAt t selector (elements p) <> [])
       | stateDetached => bool_decide (querySelectorAllAt t selector (elements p) = [])
       end).

(** [page.waitForTimeout(ms)] *)
Definition waitForTimeout (ms : nat) : M unit :=
  p ← getPage; modifyPage (withClock (clock p + ms)).

(** [page.waitForFunction(() => Array.from(document.querySelectorAll('img'))
    .every((i) => i.complete))] *)
Definition waitForImages : M unit :=
  p ← getPage;
  waitUntil "waitForFunction" (defaultTimeout p)
    (fun t p =>
       forallb (fun el =>
                  negb (attached t el && matches "img" el)
                  || match complete el with Some c => (c <=? t)%nat | None => false end)
               (elements p)).

(** [document.body.classList.add(className)] *)
Definition classListAdd (className : string) : M unit :=
  modifyPage (withBody (addClass className));; emit (ClassListAdd className).

(** [document.body.setAttribute(name, value)] *)
Definition bodySetAttribute (name value : string) : M unit :=
  modifyPage (withBody (setBodyAttribute name value));;
  emit (BodySetAttribute name value).

(** [locator.screenshot(options)] and [page.screenshot(options)].  A locator
    is strict: it waits for its selector to match and refuses more than one
    element. *)
Definition screenshot (target : Target) (options : ScreenshotOptions) : M Image :=
  emit (Screenshot target options);;
  match target with
  | ThePage => p ← getPage; mret (render target options p)
  | TheLocator selector =>
      page_waitForSelector selector stateVisible None;;
      p ← getPage;
      match querySelectorAll selector p with
      | [_] => mret (render target options p)
      | _ => throw (StrictModeViolation selector)
      end
  end.

(** Modelled from the spec: the matcher [toMatchImageSnapshot] of
    [jest-image-snapshot], which the sources only call.  Section 4.4: the
    comparison fails iff the dissimilarity exceeds the threshold; an
    identifier without a stored reference gets the image as its reference
    and the comparison passes.  The sources do not contain the comparison
    of score and threshold, and the package computes in floating point:
    what happens at a score equal to the threshold is not settled by this
    definition, and no property below rests on it. *)
Definition toMatchImageSnapshot (image : Image) (options : MatchImageSnapshotOptions)
    : M unit :=
  let identifier := customSnapshotIdentifierOption options in
  emit (ToMatchImageSnapshot identifier);;
  reference ← getSnapshot identifier;
  match reference with
  | None => storeSnapshot identifier image
  | Some reference =>
      if Qle_bool (dissimilarity (comparisonMethod options)
                     (failureThresholdType options) image reference)
                  (failureThreshold options)
      then mret tt
      else throw (SnapshotMismatch identifier)
  end.

(** *** The verifier *)

(** [expectLocatorToMatchStorySnapshot] *)
Definition expectLocatorToMatchStorySnapshot
    (locator : Target) (context : TestContext) (browser : SupportedBrowserName)
    (theme : SnapshotTheme) (options : option ScreenshotOptions) : M unit :=
  image ← screenshot locator (default {| omitBackground := None |} options);
  toMatchImageSnapshot image
    {| customSnapshotsDir := cwd +:+ "/frontend/__snapshots__";
       customSnapshotIdentifierOption :=
         customSnapshotIdentifier (context_id context) theme browser;
       comparisonMethod := ssim;
       failureThreshold := 0.01;
       failureThresholdType := percent |}.

(** [expectStoryToMatchFullPageSnapshot] *)
Definition expectStoryToMatchFullPageSnapshot
    (context : TestContext) (browser : SupportedBrowserName)
    (theme : SnapshotTheme) (targetSelector : option string) : M unit :=
  expectLocatorToMatchStorySnapshot ThePage context browser theme None.

(** [expectStoryToMatchSceneSnapshot] *)
Definition expectStoryToMatchSceneSnapshot
    (context : TestContext) (browser : SupportedBrowserName)
    (theme : SnapshotTheme) (targetSelector : option string) : M unit :=
  (p ← getPage;
   match querySelector "Navigation3000" p with
   | Some nav =>
       modifyPage (withElements (alter (setAttribute "style" "overflow: visible;") nav))
   | None => mret tt
   end);;
  expectLocatorToMatchStorySnapshot (TheLocator "main") context browser theme None.

(** [expectStoryToMatchComponentSnapshot] *)
Definition expectStoryToMatchComponentSnapshot
    (context : TestContext) (browser : SupportedBrowserName)
    (theme : SnapshotTheme) (targetSelector : option string) : M unit :=
  let targetSelector := default "#storybook-root" targetSelector in
  (p ← getPage;
   match getElementById "storybook-root" p with
   | None => throw (JsError "Could not find root element")
   | Some rootEl =>
       modifyPage (withElements (alter (withStyle (setDisplay "inline-block")) rootEl));;
       p ← getPage;
       modifyPage (withElements (expandRoot rootEl (querySelectorAll ".Popover" p)));;
       modifyPage (withBody (setBackground
                     (if decide (theme = legacy) then "transparent"
                      else "var(--bg-3000)")))
   end);;
  expectLocatorToMatchStorySnapshot (TheLocator targetSelector) context browser theme
    (Some {| omitBackground := Some true |}).

(** The three functions [check] can be bound to. *)
Inductive SnapshotCheck := FullPageSnapshot | SceneSnapshot | ComponentSnapshot.

(** Lines 125-133: which function [check] is bound to. *)
Definition selectCheck (storyContext : StoryContext) : SnapshotCheck :=
  let excludeNavigationFromSnapshot :=
    default false (excludeNavigationFromSnapshot (testOptionsOf storyContext)) in
  if decide (layoutOf storyContext = Some "fullscreen") then
    if excludeNavigationFromSnapshot then SceneSnapshot else FullPageSnapshot
  else ComponentSnapshot.

Definition check (c : SnapshotCheck)
    : TestContext -> SupportedBrowserName -> SnapshotTheme -> option string -> M unit :=
  match c with
  | FullPageSnapshot => expectStoryToMatchFullPageSnapshot
  | SceneSnapshot => expectStoryToMatchSceneSnapshot
  | ComponentSnapshot => expectStoryToMatchComponentSnapshot
  end.

(** [expectStoryToMatchSnapshot] *)
Definition expectStoryToMatchSnapshot
    (context : TestContext) (storyContext : StoryContext)
    (browser : SupportedBrowserName) : M unit :=
  let options := testOptionsOf storyContext in
  let waitForLoadersToDisappear := default true (waitForLoadersToDisappear options) in
  let waitForSelector := waitForSelector options in
  let check := check (selectCheck storyContext) in
  waitForPageReady;;
  classListAdd "storybook-test-runner";;
  (if waitForLoadersToDisappear
   then page_waitForSelector (join "," LOADER_SELECTORS) stateDetached (Some 1000)
   else mret tt);;
  match waitForSelector with
  | Some selector =>
      if decide (selector = "") then mret tt
      else page_waitForSelector selector stateVisible None
  | None => mret tt
  end;;
  waitForTimeout 400;;
  waitForImages;;
  classListAdd "posthog-3000";;
  bodySetAttribute "theme" "light";;
  check context browser light (snapshotTargetSelectorOf storyContext);;
  bodySetAttribute "theme" "dark";;
  check context browser dark (snapshotTargetSelectorOf storyContext).

(** [postVisit]; [storyContext] is what [getStoryContext] answered and
    [currentBrowser] the name of the browser of the page. *)
Definition postVisit
    (context : TestContext) (storyContext : StoryContext)
    (currentBrowser : SupportedBrowserName) : M unit :=
  let snapshotBrowsers :=
    default [chromium] (snapshotBrowsers (testOptionsOf storyContext)) in
  modifyPage (withDefaultTimeout PLAYWRIGHT_TIMEOUT_MS);;
  if decide (currentBrowser ∈ snapshotBrowsers)
  then expectStoryToMatchSnapshot context storyContext currentBrowser
  else mret tt.

End Verifier.

(** ** The bundler configuration of the story catalogue *)

Module Main.

(** The [test] of a rule: a regular expression or a string. *)
Inductive RuleCondition :=
| RegExp (source flags : string)
| Path (s : string).

(** [test.toString()] *)
Definition toString (c : RuleCondition) : string :=
  match c with
  | RegExp source flags => "/" +:+ source +:+ "/" +:+ flags
  | Path s => s
  end.

Record RuleSetRule := {
  test : option RuleCondition;         (* absent: no ['test'] key *)
  use : list string;
}.
(* A rule is an object whose [test], when the key is there, is a regular
   expression or a string.  A [test] key holding [undefined] or [null], and a
   rule that is the string "...", are not described: for these the filter of
   [webpackFinal] throws a TypeError. *)

Record Resolve := {
  extensions : option (list string);
  alias : option (gmap string string);
  resolveOptions : gmap string string;   (* the other keys *)
}.

Record ModuleOptions := {
  rules : option (list RuleSetRule);
  moduleOptions : gmap string string;    (* the other keys *)
}.

Record Configuration := {
  resolve : option Resolve;
  module : option ModuleOptions;
  configuration : gmap string string;    (* the other keys *)
}.

(** What [createEntry('main')] of the project-wide [webpack.config] yields,
    as far as [webpackFinal] reads it. *)
Record MainConfig := {
  mainExtensions : list string;
  mainAlias : gmap string string;
  mainRules : list RuleSetRule;
}.

(** [String.prototype.includes] *)
Fixpoint includes (needle s : string) : bool :=
  if String.prefix needle s then true
  else match s with
       | EmptyString => false
       | String _ rest => includes needle rest
       end.

(** The filter of line 42:
    ['test' in rule && rule.test.toString().includes('.mdx')] *)
Definition isMdxRule (rule : RuleSetRule) : bool :=
  match test rule with
  | Some t => includes ".mdx" (toString t)
  | None => false
  end.

(** [webpackFinal]; [None] stands for the [TypeError] of reading
    [extensions] of an absent [resolve] or of spreading absent
    [extensions]. *)
Definition webpackFinal (mainConfig : MainConfig) (config : Configuration)
    : option Configuration :=
  match resolve config with
  | None => None
  | Some configResolve =>
      match extensions configResolve with
      | None => None
      | Some configExtensions =>
          Some
            {| resolve :=
                 Some {| extensions :=
                           Some (configExtensions ++ mainExtensions mainConfig)%list;
                         alias :=
                           Some (mainAlias mainConfig
                                 ∪ default ∅ (alias configResolve));
                         resolveOptions := resolveOptions configResolve |};
               module :=
                 Some {| rules :=
                           Some (mainRules mainConfig
                                 ++ match module config with
                                    | Some m =>
                                        match rules m with
                                        | Some rs => filter (fun r => isMdxRule r = true) rs
                                        | None => []
                                        end
                                    | None => []
                                    end)%list;
                         moduleOptions :=
                           match module config with
                           | Some m => moduleOptions m
                           | None => ∅
                           end |};
               configuration := configuration config |}
      end
  end.

End Main.

(** ** Notions used to state the properties *)

(** The four assignments of [expandRootFor], on the inline style alone:
    [rootRect] and [popoverRect] are the two boxes read at the start. *)
Definition expandStyle (rootRect popoverRect : DOMRect.t) (s : Style) : Style :=
  let s := if (DOMRect.right popoverRect >? DOMRect.right rootRect)%Z
           then setWidth (DOMRect.right popoverRect) s else s in
  let s := if (DOMRect.bottom popoverRect >? DOMRect.bottom rootRect)%Z
           then setHeight (DOMRect.bottom popoverRect) s else s in
  let s := if (DOMRect.top popoverRect <? DOMRect.top rootRect)%Z
           then setHeight (- DOMRect.top popoverRect + DOMRect.bottom rootRect) s
           else s in
  let s := if (DOMRect.left popoverRect <? DOMRect.left rootRect)%Z
           then setWidth (- DOMRect.left popoverRect + DOMRect.right rootRect) s
           else s in
  s.

(** [after] is [before] with another inline style, and its box reaches at
    least as far right and down. *)
Definition grown (before after : Element) : Prop :=
  after = withStyle (fun _ => style after) before
  /\ (DOMRect.right (getBoundingClientRect before)
      <= DOMRect.right (getBoundingClientRect after))%Z
  /\ (DOMRect.bottom (getBoundingClientRect before)
      <= DOMRect.bottom (getBoundingClientRect after))%Z.

(** The characters of a string, last one first. *)
Definition backwards (s : string) : list ascii := List.rev (list_ascii_of_string s).

(** The moment the wait for the loaders starts: when the page is ready. *)
Definition loaderWaitStart (p : Page) : nat :=
  match readyAt p with
  | Some r => Nat.max r (clock p)
  | None => clock p
  end.

(** From any world, [m] adds to the events a prefix of [es], and all of
    [es] when it returns. *)
Definition emits {Image A} (m : M Image A) (es : list Event) : Prop :=
  forall w : World Image,
    exists k, events (snd (m w)) = (events w ++ k)%list
              /\ k `prefix_of` es
              /\ (forall a, fst (m w) = Returned a -> k = es).

(** [m] leaves the elements of the document as they are. *)
Definition keepsElements {Image A} (m : M Image A) : Prop :=
  forall w : World Image, elements (page (snd (m w))) = elements (page w).


Arguments firstTime : simpl never.

Arguments querySelectorAll : simpl never.
Arguments querySelector : simpl never.
Arguments getElementById : simpl never.
Arguments expandRoot : simpl never.
Arguments customSnapshotIdentifier : simpl never.

(** ** Sample pages and configurations *)

Module Sample.

Definition element (tag : string) (id : option string) (classes : list string)
    (x y w h : Z) : Element :=
  {| tagName := tag; elementId := id; classList := classes; attributes := ∅;
     style := {| display := None; width := None; height := None |};
     offsetLeft := x; offsetTop := y; contentWidth := w; contentHeight := h;
     complete := None; attachedAt := 0; detachedAt := None |}.

Definition pageOf (els : list Element) : Page :=
  {| clock := 0; defaultTimeout := PLAYWRIGHT_TIMEOUT_MS; readyAt := Some 5%nat;
     elements := els;
     body := {| bodyClassList := []; bodyAttributes := ∅; bodyBackground := None |} |}.

Definition worldOf (els : list Element) : World unit :=
  {| page := pageOf els; snapshots := ∅; events := [] |}.

Definition render (target : Target) (options : ScreenshotOptions) (p : Page) : unit := tt.

(** A comparison that always measures a difference of exactly 1%. *)
Definition onePercent (method : ComparisonMethod) (type : FailureThresholdType)
    (image reference : unit) : Q := 0.01.

Definition context : TestContext := {| context_id := "button--primary" |}.

Definition defaultStory : StoryContext := {| parameters := None |}.

Definition sceneStory : StoryContext :=
  {| parameters :=
       Some {| layout := Some "fullscreen";
               testOptions :=
                 Some {| waitForLoadersToDisappear := None;
                         waitForSelector := None;
                         excludeNavigationFromSnapshot := Some true;
                         snapshotBrowsers := None;
                         snapshotTargetSelector := None |} |} |}.

(** A root element at (10, 10), 10 by 10. *)
Definition root : Element := element "div" (Some "storybook-root") [] 10 10 10 10.

(** An overlay that starts left of the root and ends right of it, from
    (5, 12) to (100, 18). *)
Definition across : Element := element "div" None ["Popover"] 5 12 95 6.

(** An overlay to the lower right of the root, from (15, 15) to (40, 50). *)
Definition below : Element := element "div" None ["Popover"] 15 15 25 35.

Definition overlayAcross : list Element := [root; across].
Definition overlayBelow : list Element := [root; below].

(** A component with a spinner that stays. *)
Definition spinner : Element := element "div" None ["Spinner"] 12 12 4 4.
Definition loading : list Element := [root; spinner].

(** A scene: the navigation container, clipped, and the main content. *)
Definition scene : list Element :=
  [ setAttribute "style" "overflow: hidden;"
      (element "div" None ["Navigation3000"] 0 0 200 600);
    element "main" None [] 200 0 800 600 ].

(** A component whose story narrows the snapshot to [.target]. *)
Definition narrowed : list Element :=
  [ root; element "div" None ["target"] 12 12 4 4 ].

(** A story that narrows its snapshot so. *)
Definition narrowedStory : StoryContext :=
  {| parameters :=
       Some {| layout := Some "centered";
               testOptions :=
                 Some {| waitForLoadersToDisappear := None;
                         waitForSelector := None;
                         excludeNavigationFromSnapshot := None;
                         snapshotBrowsers := None;
                         snapshotTargetSelector := Some ".target" |} |} |}.

Definition mdxRule : Main.RuleSetRule :=
  {| Main.test := Some (Main.RegExp "\.mdx$" ""); Main.use := ["mdx-loader"] |}.

Definition cssRule : Main.RuleSetRule :=
  {| Main.test := Some (Main.RegExp "\.css$" ""); Main.use := ["css-loader"] |}.

Definition tsxRule : Main.RuleSetRule :=
  {| Main.test := Some (Main.RegExp "\.tsx?$" ""); Main.use := ["babel-loader"] |}.

Definition storybookResolve : Main.Resolve :=
  {| Main.extensions := Some [".mjs"; ".js"];
     Main.alias := Some {[ "react" := "storybook/react" ]};
     Main.resolveOptions := ∅ |}.

Definition storybookConfig : Main.Configuration :=
  {| Main.resolve := Some storybookResolve;
     Main.module := Some {| Main.rules := Some [mdxRule; cssRule];
                            Main.moduleOptions := ∅ |};
     Main.configuration := ∅ |}.

Definition mainConfig : Main.MainConfig :=
  {| Main.mainExtensions := [".ts"; ".tsx"];
     Main.mainAlias := {[ "~" := "frontend/src" ]};
     Main.mainRules := [tsxRule] |}.

End Sample.

(** ** Notions used to state further properties *)

(** The box [inner] lies within the box [outer]. *)
Definition inside (inner outer : DOMRect.t) : Prop :=
  (DOMRect.left outer <= DOMRect.left inner)%Z
  /\ (DOMRect.top outer <= DOMRect.top inner)%Z
  /\ (DOMRect.right inner <= DOMRect.right outer)%Z
  /\ (DOMRect.bottom inner <= DOMRect.bottom outer)%Z.

(** When [m] starts in a world satisfying [P] and returns, it ends in a
    world satisfying [Q]. *)
Definition returnsWith {Image A} (P : World Image -> Prop) (m : M Image A)
    (Q : World Image -> Prop) : Prop :=
  forall (w w' : World Image) (a : A), P w -> m w = (Returned a, w') -> Q w'.

(** Whether [m] returns or throws, [I] is kept. *)
Definition keeps {Image A} (I : World Image -> Prop) (m : M Image A) : Prop :=
  forall w : World Image, I w -> I (snd (m w)).

(** The class names of the loader selectors. *)
Definition loaderClasses : list string :=
  [ "ant-skeleton"; "Spinner"; "LemonSkeleton"; "LemonTableLoader";
    "Toastify__toast-container"; "SessionRecordingPlayer--buffering";
    "Lettermark--unknown" ].


(** [m] changes nothing of the page but its clock, which it never sets
    back. *)
Definition clockOnly {Image A} (m : M Image A) : Prop :=
  forall w : World Image,
    exists t, (clock (page w) <= t)%nat
              /\ page (snd (m w)) = withClock t (page w).


(** [m] never sets the clock of the page back. *)
Definition advances {Image A} (m : M Image A) : Prop :=
  forall w : World Image, (clock (page w) <= clock (page (snd (m w))))%nat.

(** [m] leaves the classes and the attributes of the body as they are. *)
Definition keepsBodyMarks {Image A} (m : M Image A) : Prop :=
  forall w : World Image,
    bodyClassList (body (page (snd (m w)))) = bodyClassList (body (page w))
    /\ bodyAttributes (body (page (snd (m w)))) = bodyAttributes (body (page w)).


Module SampleExtras.

(** An overlay within the sample root, from (12, 12) to (16, 16). *)
Definition within : Element := Sample.element "div" None ["Popover"] 12 12 4 4.
Definition overlayWithin : list Element := [Sample.root; within].

(** An image that never finishes loading. *)
Definition pending : Element := Sample.element "img" None [] 12 12 4 4.
Definition withPendingImage : list Element := [Sample.root; pending].


(** A page with a short default timeout that never becomes ready. *)
Definition neverReady : World unit :=
  {| page := {| clock := 7; defaultTimeout := 30; readyAt := None;
                elements := Sample.overlayBelow;
                body := {| bodyClassList := []; bodyAttributes := ∅;
                           bodyBackground := None |} |};
     snapshots := ∅; events := [] |}.

End SampleExtras.


Module SampleOverride.

(** The sample root, the element a story narrows its snapshot to, and an
    overlay to the lower right of the root, from (15, 15) to (40, 50). *)
Definition target : Element := Sample.element "div" None ["target"] 12 12 4 4.
Definition withOverlay : list Element := [Sample.root; target; Sample.below].

End SampleOverride.


(** ** The selectors that are read as the browser reads them

    A name starts with a letter or an underscore and goes on with letters,
    digits, hyphens and underscores; an attribute name is in lower case, and
    an attribute value is made of printable characters without a backslash.
    A selector is supported when it is a comma-separated list, without
    spaces, of a type selector, [.class], [#id] or [[attr="value"]] over
    such names. *)
Definition isLower (a : ascii) : bool :=
  let n := nat_of_ascii a in ((97 <=? n) && (n <=? 122))%nat.

Definition isDigit (a : ascii) : bool :=
  let n := nat_of_ascii a in ((48 <=? n) && (n <=? 57))%nat.

Definition isNameStart (a : ascii) : bool :=
  let n := nat_of_ascii a in
  isLower a || ((65 <=? n) && (n <=? 90))%nat || bool_decide (a = "_"%char).

Definition isNameChar (a : ascii) : bool :=
  isNameStart a || isDigit a || bool_decide (a = "-"%char).

Definition isName (s : string) : bool :=
  match s with
  | EmptyString => false
  | String a rest => isNameStart a && forallb isNameChar (list_ascii_of_string rest)
  end.

Definition isAttributeName (s : string) : bool :=
  isName s && bool_decide (toLowerCase s = s).

Definition isValueChar (a : ascii) : bool :=
  let n := nat_of_ascii a in
  ((32 <=? n) && (n <=? 126))%nat && negb (bool_decide (a = "\"%char)).

Definition supportedSimple (sel : SimpleSelector) : bool :=
  match sel with
  | SelType name | SelClass name | SelId name => isName name
  | SelAttr name value =>
      isAttributeName name && forallb isValueChar (list_ascii_of_string value)
  | SelInvalid => false
  end.

Definition supportedSelector (selector : string) : bool :=
  forallb supportedSimple (parseSelector selector).

(** * Properties *)

(** ** The snapshot identifier *)

Example identifier_light_chromium :
  customSnapshotIdentifier "components-button--primary" light chromium
  = "components-button--primary--light".
Proof. reflexivity. Qed.

Example identifier_dark_webkit :
  customSnapshotIdentifier "components-button--primary" dark webkit
  = "components-button--primary--dark--webkit".
Proof. reflexivity. Qed.

Example identifier_legacy_chromium :
  customSnapshotIdentifier "components-button--primary" legacy chromium
  = "components-button--primary".
Proof. reflexivity. Qed.

(** *** Strings as character lists, read from the end *)

Lemma list_ascii_of_string_app (s1 s2 : string) :
  list_ascii_of_string (s1 +:+ s2)
  = (list_ascii_of_string s1 ++ list_ascii_of_string s2)%list.
Proof. induction s1 as [|c s1 IH]; simpl; [reflexivity | now rewrite IH]. Qed.

Lemma list_ascii_of_string_inj (s1 s2 : string) :
  list_ascii_of_string s1 = list_ascii_of_string s2 -> s1 = s2.
Proof.
  intros H. rewrite <- (string_of_list_ascii_of_string s1).
  rewrite <- (string_of_list_ascii_of_string s2). now rewrite H.
Qed.

Lemma backwards_app (s1 s2 : string) :
  backwards (s1 +:+ s2) = (backwards s2 ++ backwards s1)%list.
Proof. unfold backwards. rewrite list_ascii_of_string_app. apply List.rev_app_distr. Qed.

Lemma backwards_inj (s1 s2 : string) : backwards s1 = backwards s2 -> s1 = s2.
Proof.
  unfold backwards. intros H. apply list_ascii_of_string_inj.
  rewrite <- (List.rev_involutive (list_ascii_of_string s1)).
  rewrite <- (List.rev_involutive (list_ascii_of_string s2)). now rewrite H.
Qed.

(** The identifier read from the end: suffix characters first, then the
    story identifier. *)
Lemma backwards_identifier id theme browser :
  backwards (customSnapshotIdentifier id theme browser)
  = ((if decide (browser <> chromium)
      then backwards ("--" +:+ browserName browser) else [])
     ++ (if decide (theme <> legacy)
         then backwards ("--" +:+ themeName theme) else [])
     ++ backwards id)%list.
Proof.
  unfold customSnapshotIdentifier.
  destruct (decide (theme <> legacy)), (decide (browser <> chromium));
    rewrite ?backwards_app; simpl; rewrite <- ?app_assoc; reflexivity.
Qed.

(** A collision: the story identifier may itself end in what a theme adds. *)
Lemma identifier_collision :
  customSnapshotIdentifier "button--light" legacy chromium
  = customSnapshotIdentifier "button" light chromium.
Proof. reflexivity. Qed.

(** C2, as stated: the identifier is injective over all triples.  It is not:
    the triples of [identifier_collision] differ and get the same
    identifier. *)
Lemma identifier_not_injective :
  ~ (forall id1 theme1 browser1 id2 theme2 browser2,
        (id1, theme1, browser1) <> (id2, theme2, browser2) ->
        customSnapshotIdentifier id1 theme1 browser1
        <> customSnapshotIdentifier id2 theme2 browser2).
Proof.
  intros H.
  apply (H "button--light" legacy chromium "button" light chromium).
  - discriminate.
  - reflexivity.
Qed.

(** C2, amended: two triples with the same identifier are equal when they
    are for the same story, and when neither theme is the legacy one (the
    verifier only passes ['light'] and ['dark']). *)
Theorem identifier_injective
    (id1 id2 : string) (theme1 theme2 : SnapshotTheme)
    (browser1 browser2 : SupportedBrowserName) :
  id1 = id2 \/ (theme1 <> legacy /\ theme2 <> legacy) ->
  customSnapshotIdentifier id1 theme1 browser1
  = customSnapshotIdentifier id2 theme2 browser2 ->
  (id1, theme1, browser1) = (id2, theme2, browser2).
Proof.
  intros Hcases H. apply (f_equal backwards) in H.
  rewrite !backwards_identifier in H.
  destruct Hcases as [-> | [Hl1 Hl2]].
  - set (x := backwards id2) in *. clearbody x.
    destruct theme1, theme2, browser1, browser2; try reflexivity; exfalso;
      apply (f_equal length) in H; simpl in H;
      rewrite ?length_app in H; simpl in H; lia.
  - destruct theme1, theme2, browser1, browser2; try congruence; simpl in H;
      repeat match type of H with
             | (?a :: _ = ?a :: _) => injection H as H
             end;
      first [ discriminate H
            | apply backwards_inj in H; subst; reflexivity ].
Qed.

Lemma identifier_injective_witness :
  customSnapshotIdentifier "button--primary" dark webkit
  = customSnapshotIdentifier "button--primary" dark webkit
  /\ ("button--primary", dark, webkit) = ("button--primary", dark, webkit).
Proof.
  split; [reflexivity |].
  apply (identifier_injective "button--primary" "button--primary" dark dark
           webkit webkit).
  - right. split; discriminate.
  - reflexivity.
Defined.

(** ** The choice of the capture mode *)

(** C5: the function bound to [check] is decided by the layout and by
    [excludeNavigationFromSnapshot] alone: the full-page one iff the layout
    is ['fullscreen'] and navigation is not excluded, the scene one iff the
    layout is ['fullscreen'] and navigation is excluded, the component one
    iff the layout is anything else, or absent. *)
Theorem check_selection (storyContext : StoryContext) :
  let fullscreen := layoutOf storyContext = Some "fullscreen" in
  let excluded :=
    excludeNavigationFromSnapshot (testOptionsOf storyContext) = Some true in
  (selectCheck storyContext = FullPageSnapshot <-> fullscreen /\ ~ excluded)
  /\ (selectCheck storyContext = SceneSnapshot <-> fullscreen /\ excluded)
  /\ (selectCheck storyContext = ComponentSnapshot <-> ~ fullscreen).
Proof.
  unfold selectCheck. simpl.
  destruct (decide (layoutOf storyContext = Some "fullscreen")) as [Hf | Hf];
    destruct (excludeNavigationFromSnapshot (testOptionsOf storyContext))
      as [[|]|]; simpl; intuition congruence.
Qed.

Example check_selection_centered :
  selectCheck {| parameters := Some {| layout := Some "centered";
                                       testOptions := None |} |}
  = ComponentSnapshot.
Proof. reflexivity. Qed.

Example check_selection_no_parameters :
  selectCheck {| parameters := None |} = ComponentSnapshot.
Proof. reflexivity. Qed.

(** ** The bundler configuration *)

Lemma append_cons (c : ascii) (s t : string) :
  String c s +:+ t = String c (s +:+ t).
Proof. reflexivity. Qed.

Lemma string_prefix_app (needle s : string) :
  String.prefix needle s = true <-> exists post, s = needle +:+ post.
Proof.
  revert s. induction needle as [|c needle IH]; intros s; simpl.
  - split; [intros _; exists s; reflexivity | destruct s; reflexivity].
  - destruct s as [|c' s]; simpl.
    + split; [discriminate | intros [post H]; discriminate].
    + destruct (ascii_dec c c') as [-> | Hne].
      * rewrite IH. split; intros [post H]; exists post.
        -- rewrite append_cons. now rewrite H.
        -- rewrite append_cons in H. now injection H.
      * split; [discriminate |].
        intros [post H]. rewrite append_cons in H. injection H as Hc _.
        now destruct Hne.
Qed.

Lemma includes_unfold (needle s : string) :
  Main.includes needle s
  = if String.prefix needle s then true
    else match s with
         | EmptyString => false
         | String _ rest => Main.includes needle rest
         end.
Proof. destruct s; reflexivity. Qed.

(** [includes] finds its needle exactly when the string has it inside. *)
Lemma includes_spec (needle s : string) :
  Main.includes needle s = true <-> exists pre post, s = pre +:+ needle +:+ post.
Proof.
  induction s as [|c s IH]; rewrite includes_unfold;
    destruct (String.prefix needle _) eqn:Hp.
  - apply string_prefix_app in Hp as [post Hp].
    split; [intros _; exists "", post; exact Hp | reflexivity].
  - split; [discriminate |]. intros [pre [post H]].
    destruct pre; [| discriminate].
    change ("" +:+ needle +:+ post) with (needle +:+ post) in H.
    assert (String.prefix needle "" = true) by (apply string_prefix_app; eauto).
    congruence.
  - apply string_prefix_app in Hp as [post Hp].
    split; [intros _; exists "", post; exact Hp | reflexivity].
  - rewrite IH. split.
    + intros [pre [post H]]. exists (String c pre), post.
      rewrite append_cons. now f_equal.
    + intros [pre [post H]]. destruct pre as [|c' pre];
        [change ("" +:+ needle +:+ post) with (needle +:+ post) in H
        | rewrite append_cons in H].
      * assert (String.prefix needle (String c s) = true)
          by (apply string_prefix_app; eauto).
        congruence.
      * exists pre, post. now injection H.
Qed.

Example mdx_rule_kept :
  Main.isMdxRule {| Main.test := Some (Main.RegExp "\.mdx$" ""); Main.use := [] |}
  = true.
Proof. reflexivity. Qed.

Example tsx_rule_dropped :
  Main.isMdxRule {| Main.test := Some (Main.RegExp "\.tsx?$" ""); Main.use := [] |}
  = false.
Proof. reflexivity. Qed.

(** C9: the merged configuration has the rules of the project-wide
    configuration first, followed by those incoming rules, in their order,
    that have a [test] whose string form contains [.mdx]; its extensions are
    the incoming ones followed by the project-wide ones; its aliases are
    those of both, the project-wide one winning where both name a key. *)
Theorem webpackFinal_merge
    (mainConfig : Main.MainConfig) (config : Main.Configuration)
    (configResolve : Main.Resolve) (configExtensions : list string) :
  Main.resolve config = Some configResolve ->
  Main.extensions configResolve = Some configExtensions ->
  let incoming :=
    match Main.module config with
    | Some m => default [] (Main.rules m)
    | None => []
    end in
  exists merged mergedResolve mergedModule kept mergedAlias,
    Main.webpackFinal mainConfig config = Some merged
    /\ Main.resolve merged = Some mergedResolve
    /\ Main.module merged = Some mergedModule
    /\ Main.rules mergedModule = Some (Main.mainRules mainConfig ++ kept)%list
    /\ kept `sublist_of` incoming
    /\ (forall rule,
          rule ∈ kept <->
          rule ∈ incoming
          /\ exists t pre post,
               Main.test rule = Some t
               /\ Main.toString t = pre +:+ ".mdx" +:+ post)
    /\ Main.extensions mergedResolve
       = Some (configExtensions ++ Main.mainExtensions mainConfig)%list
    /\ Main.alias mergedResolve = Some mergedAlias
    /\ (forall key,
          mergedAlias !! key
          = match Main.mainAlias mainConfig !! key with
            | Some v => Some v
            | None => default ∅ (Main.alias configResolve) !! key
            end).
Proof.
  intros Hresolve Hext incoming. unfold Main.webpackFinal.
  rewrite Hresolve, Hext.
  eexists _, _, _, (filter (fun r => Main.isMdxRule r = true) incoming), _.
  repeat split.
  - simpl. do 2 f_equal. subst incoming.
    destruct (Main.module config) as [m|]; [| reflexivity].
    destruct (Main.rules m); reflexivity.
  - apply sublist_filter.
  - apply list_elem_of_filter in H. tauto.
  - apply list_elem_of_filter in H as [H _]. unfold Main.isMdxRule in H.
    destruct (Main.test rule) as [t|]; [| discriminate].
    apply includes_spec in H as [pre [post H]]. eauto.
  - intros [Hin [t [pre [post [Ht Hs]]]]]. apply list_elem_of_filter.
    split; [| exact Hin]. unfold Main.isMdxRule. rewrite Ht.
    apply includes_spec. eauto.
  - intros key. rewrite lookup_union.
    destruct (Main.mainAlias mainConfig !! key) as [v|] eqn:Hm; simpl.
    + destruct (default ∅ (Main.alias configResolve) !! key); reflexivity.
    + destruct (default ∅ (Main.alias configResolve) !! key); reflexivity.
Qed.

(** ** The verifier *)

Section VerifierProperties.

Context {Image : Type}.
Variable render : Target -> ScreenshotOptions -> Page -> Image.
Variable dissimilarity :
  ComparisonMethod -> FailureThresholdType -> Image -> Image -> Q.
Variable cwd : string.

Local Abbreviation M := (M Image).
Local Abbreviation World := (World Image).

Lemma bind_returned {A B} (m : M A) (k : A -> M B) (w w' : World) (a : A) :
  m w = (Returned a, w') -> (m ≫= k) w = k a w'.
Proof. intros H. unfold mbind, M_bind, bind. now rewrite H. Qed.

Lemma bind_thrown {A B} (m : M A) (k : A -> M B) (w w' : World) (e : Error) :
  m w = (Thrown e, w') -> (m ≫= k) w = (Thrown e, w').
Proof. intros H. unfold mbind, M_bind, bind. now rewrite H. Qed.

(** Without a root element the script of the component check throws, and
    the check stops there. *)
Lemma component_check_without_root
    (context : TestContext) (browser : SupportedBrowserName)
    (theme : SnapshotTheme) (targetSelector : option string) (w : World) :
  getElementById "storybook-root" (page w) = None ->
  expectStoryToMatchComponentSnapshot render dissimilarity cwd
    context browser theme targetSelector w
  = (Thrown (JsError "Could not find root element"), w).
Proof.
  intros Hroot. unfold expectStoryToMatchComponentSnapshot.
  apply bind_thrown.
  rewrite (bind_returned getPage _ w w (page w) eq_refl).
  now rewrite Hroot.
Qed.

(** *** The overlay expansion *)

Lemma alter_as_insert {A} (f : A -> A) (i : nat) (l : list A) (x : A) :
  l !! i = Some x -> alter f i l = <[i := f x]> l.
Proof.
  revert i. induction l as [|y l IH]; intros [|i] H; simpl in *; try discriminate.
  - now injection H as ->.
  - f_equal. now apply IH.
Qed.

Lemma withStyle_withStyle (f g : Style -> Style) (el : Element) :
  withStyle f (withStyle g el) = withStyle (fun s => f (g s)) el.
Proof. reflexivity. Qed.

Lemma withStyle_same (el : Element) : withStyle (fun _ => style el) el = el.
Proof. now destruct el. Qed.

(** The assignments of one [forEach] step all go to the root element. *)
Lemma expandRootFor_insert (rootEl popover : nat) (els : list Element)
    (root pop : Element) :
  els !! rootEl = Some root ->
  els !! popover = Some pop ->
  expandRootFor rootEl popover els
  = <[rootEl := withStyle
                  (expandStyle (getBoundingClientRect root) (getBoundingClientRect pop))
                  root]> els.
Proof.
  intros Hroot Hpop. unfold expandRootFor, expandStyle. rewrite Hroot, Hpop.
  set (R := getBoundingClientRect root). set (P := getBoundingClientRect pop).
  destruct (DOMRect.right P >? DOMRect.right R)%Z,
           (DOMRect.bottom P >? DOMRect.bottom R)%Z,
           (DOMRect.top P <? DOMRect.top R)%Z,
           (DOMRect.left P <? DOMRect.left R)%Z;
    cbv zeta;
    rewrite ?list_alter_alter_eq;
    first [ erewrite alter_as_insert by eassumption; reflexivity
          | symmetry; rewrite <- (withStyle_same root) at 2;
            apply list_insert_id; rewrite withStyle_same; assumption
          | idtac ].
  symmetry. apply list_insert_id. rewrite Hroot. f_equal. now destruct root.
Qed.

Lemma grown_refl (el : Element) : grown el el.
Proof. unfold grown. rewrite withStyle_same. repeat split; lia. Qed.

Lemma grown_trans (a b c : Element) : grown a b -> grown b c -> grown a c.
Proof.
  intros (Hb & Hr1 & Hb1) (Hc & Hr2 & Hb2). repeat split; [| lia | lia].
  rewrite Hc at 1. rewrite Hb at 1. reflexivity.
Qed.

Lemma grown_origin (a b : Element) :
  grown a b ->
  DOMRect.left (getBoundingClientRect b) = DOMRect.left (getBoundingClientRect a)
  /\ DOMRect.top (getBoundingClientRect b) = DOMRect.top (getBoundingClientRect a)
  /\ offsetLeft b = offsetLeft a /\ offsetTop b = offsetTop a.
Proof. intros (-> & _ & _). repeat split. Qed.

Ltac compare_edges :=
  repeat match goal with
         | |- context [(?a >? ?b)%Z] => destruct (Z.gtb_spec a b)
         | |- context [(?a <? ?b)%Z] => destruct (Z.ltb_spec a b)
         end.

(** One step: the root grows, keeps its origin, and reaches the right and
    bottom edges of an overlay that does not also start left of or above
    it; for an overlay that does, the root becomes as wide (high) as the
    span from the overlay's left (top) edge to its own right (bottom) edge. *)
Lemma expandStyle_step (root pop : Element) :
  let R := getBoundingClientRect root in
  let P := getBoundingClientRect pop in
  let R' := getBoundingClientRect (withStyle (expandStyle R P) root) in
  (0 <= offsetLeft root)%Z -> (0 <= offsetTop root)%Z ->
  grown root (withStyle (expandStyle R P) root)
  /\ (DOMRect.left R <= DOMRect.left P -> DOMRect.right P <= DOMRect.right R')%Z
  /\ (DOMRect.top R <= DOMRect.top P -> DOMRect.bottom P <= DOMRect.bottom R')%Z
  /\ (DOMRect.left P < DOMRect.left R ->
      DOMRect.right R - DOMRect.left P <= DOMRect.right R' - DOMRect.left R')%Z
  /\ (DOMRect.top P < DOMRect.top R ->
      DOMRect.bottom R - DOMRect.top P <= DOMRect.bottom R' - DOMRect.top R')%Z.
Proof.
  destruct root as [? ? ? ? [? rw rh] rx ry rcw rch ? ? ?].
  destruct pop as [? ? ? ? [? pw ph] px py pcw pch ? ? ?].
  unfold grown, expandStyle, getBoundingClientRect. simpl. intros Hx Hy.
  compare_edges; simpl; repeat split; try reflexivity; try lia.
Qed.

(** The whole pass: the root grows and nothing else changes. *)
Lemma expandRoot_grown (rootEl : nat) (popovers : list nat) :
  forall (els : list Element) (root : Element),
    els !! rootEl = Some root ->
    (0 <= offsetLeft root)%Z -> (0 <= offsetTop root)%Z ->
    exists root',
      expandRoot rootEl popovers els !! rootEl = Some root'
      /\ grown root root'
      /\ forall i, i <> rootEl -> expandRoot rootEl popovers els !! i = els !! i.
Proof.
  induction popovers as [|p ps IH]; intros els root Hroot Hx Hy.
  - exists root. split; [exact Hroot |]. split; [apply grown_refl | reflexivity].
  - unfold expandRoot. simpl. fold (expandRoot rootEl ps).
    destruct (els !! p) as [pop|] eqn:Hp.
    + rewrite (expandRootFor_insert _ _ _ _ _ Hroot Hp).
      destruct (expandStyle_step root pop Hx Hy) as (Hg & _).
      set (r1 := withStyle _ root) in *.
      destruct (grown_origin _ _ Hg) as (_ & _ & Hox & Hoy).
      destruct (IH (<[rootEl := r1]> els) r1) as (root' & Hl & Hg' & Hothers).
      * apply list_lookup_insert_eq. now apply lookup_lt_Some in Hroot.
      * lia.
      * lia.
      * exists root'. split; [exact Hl |]. split; [eapply grown_trans; eauto |].
        intros i Hi. rewrite Hothers by exact Hi.
        apply list_lookup_insert_ne. congruence.
    + assert (expandRootFor rootEl p els = els) as ->.
      { unfold expandRootFor. rewrite Hroot, Hp. reflexivity. }
      eauto.
Qed.

(** An overlay in the list, seen from the end of the pass. *)
Lemma expandRoot_covers (rootEl : nat) (popovers : list nat) (els : list Element)
    (root pop : Element) (popover : nat) :
  els !! rootEl = Some root ->
  (0 <= offsetLeft root)%Z -> (0 <= offsetTop root)%Z ->
  popover ∈ popovers ->
  els !! popover = Some pop ->
  let R := getBoundingClientRect root in
  let P := getBoundingClientRect pop in
  exists root',
    expandRoot rootEl popovers els !! rootEl = Some root'
    /\ grown root root'
    /\ (forall i, i <> rootEl -> expandRoot rootEl popovers els !! i = els !! i)
    /\ let R' := getBoundingClientRect root' in
       (DOMRect.left R <= DOMRect.left P -> DOMRect.right P <= DOMRect.right R')%Z
       /\ (DOMRect.top R <= DOMRect.top P -> DOMRect.bottom P <= DOMRect.bottom R')%Z
       /\ (DOMRect.left P < DOMRect.left R ->
           DOMRect.right R - DOMRect.left P
           <= DOMRect.right R' - DOMRect.left R')%Z
       /\ (DOMRect.top P < DOMRect.top R ->
           DOMRect.bottom R - DOMRect.top P
           <= DOMRect.bottom R' - DOMRect.top R')%Z.
Proof.
  intros Hroot Hx Hy Hin Hpop R P.
  destruct (expandRoot_grown rootEl popovers els root Hroot Hx Hy)
    as (root' & Hl & Hg & Hothers).
  exists root'. split; [exact Hl |]. split; [exact Hg |]. split; [exact Hothers |].
  destruct (decide (popover = rootEl)) as [-> | Hne].
  { assert (pop = root) as -> by congruence.
    destruct Hg as (_ & Hr & Hb). subst R P. cbv zeta. repeat split; lia. }
  apply list_elem_of_split in Hin as (ps1 & ps2 & ->).
  unfold expandRoot in Hl. rewrite fold_left_app in Hl. simpl in Hl.
  fold (expandRoot rootEl ps1 els) in Hl.
  destruct (expandRoot_grown rootEl ps1 els root Hroot Hx Hy)
    as (r1 & Hl1 & Hg1 & Hothers1).
  destruct (grown_origin _ _ Hg1) as (Hleft1 & Htop1 & Hox1 & Hoy1).
  assert (Hpop1 : expandRoot rootEl ps1 els !! popover = Some pop)
    by (rewrite Hothers1; assumption).
  rewrite (expandRootFor_insert _ _ _ _ _ Hl1 Hpop1) in Hl.
  destruct (expandStyle_step r1 pop) as (Hg2 & Hright & Hbottom & Hwide & Hhigh);
    [lia | lia |].
  set (r2 := withStyle _ r1) in *.
  destruct (grown_origin _ _ Hg2) as (Hleft2 & Htop2 & Hox2 & Hoy2).
  fold (expandRoot rootEl ps2 (<[rootEl := r2]> (expandRoot rootEl ps1 els))) in Hl.
  destruct (expandRoot_grown rootEl ps2
              (<[rootEl := r2]> (expandRoot rootEl ps1 els)) r2)
    as (r3 & Hl3 & Hg3 & _).
  { apply list_lookup_insert_eq. now apply lookup_lt_Some in Hl1. }
  { lia. }
  { lia. }
  assert (r3 = root') as -> by congruence.
  destruct (grown_origin _ _ Hg3) as (Hleft3 & Htop3 & _ & _).
  destruct Hg1 as (_ & Hr1 & Hb1). destruct Hg3 as (_ & Hr3 & Hb3).
  subst R P. cbv zeta in *.
  repeat split; lia.
Qed.

(** *** Queries *)

Lemma findIndices_go_spec (f : Element -> bool) (els : list Element) :
  forall (i j : nat),
    j ∈ findIndices_go f i els
    <-> exists el, (i <= j)%nat /\ els !! (j - i)%nat = Some el /\ f el = true.
Proof.
  induction els as [|x els IH]; intros i j; simpl.
  - split; [intros H; inversion H | intros (el & _ & H & _); discriminate].
  - assert (Htail : j ∈ findIndices_go f (S i) els
                    <-> exists el, (i < j)%nat
                                   /\ (x :: els) !! (j - i)%nat = Some el
                                   /\ f el = true).
    { rewrite IH. split; intros (el & Hle & Hl & Hf); exists el.
      - split; [lia |]. split; [| exact Hf].
        replace (j - i)%nat with (S (j - S i)) by lia. exact Hl.
      - split; [lia |]. split; [| exact Hf].
        replace (j - i)%nat with (S (j - S i)) in Hl by lia. exact Hl. }
    destruct (f x) eqn:Hfx.
    + rewrite elem_of_cons, Htail. split.
      * intros [-> | (el & Hlt & Hl & Hf)].
        -- exists x. rewrite Nat.sub_diag. auto.
        -- exists el. split; [lia | auto].
      * intros (el & Hle & Hl & Hf).
        destruct (decide (j = i)) as [-> | Hne]; [now left | right].
        exists el. split; [lia | auto].
    + rewrite Htail. split.
      * intros (el & Hlt & Hl & Hf). exists el. split; [lia | auto].
      * intros (el & Hle & Hl & Hf).
        destruct (decide (j = i)) as [-> | Hne].
        -- rewrite Nat.sub_diag in Hl. simpl in Hl. congruence.
        -- exists el. split; [lia | auto].
Qed.

Lemma findIndices_spec (f : Element -> bool) (els : list Element) (j : nat) :
  j ∈ findIndices f els <-> exists el, els !! j = Some el /\ f el = true.
Proof.
  unfold findIndices. rewrite findIndices_go_spec. rewrite Nat.sub_0_r.
  split; [intros (el & _ & H); eauto | intros (el & H); exists el; split; [lia | auto]].
Qed.

Lemma findIndices_nil (f : Element -> bool) (els : list Element) (el : Element) :
  el ∈ els -> f el = true -> findIndices f els <> [].
Proof.
  intros Hin Hf Hnil. apply list_elem_of_lookup in Hin as [j Hj].
  assert (H : j ∈ findIndices f els) by (apply findIndices_spec; eauto).
  rewrite Hnil in H. inversion H.
Qed.

Lemma head_elem_of {A} (l : list A) (x : A) : head l = Some x -> x ∈ l.
Proof. destruct l; simpl; [discriminate | intros [= ->]; left]. Qed.

Lemma getElementById_Some (id : string) (p : Page) (i : nat) :
  getElementById id p = Some i ->
  exists el, elements p !! i = Some el
             /\ attached (clock p) el = true /\ elementId el = Some id.
Proof.
  unfold getElementById. intros H. apply head_elem_of in H.
  apply findIndices_spec in H as (el & Hl & Hf).
  apply andb_prop in Hf as [Ha Hid]. apply bool_decide_eq_true in Hid. eauto.
Qed.

Lemma querySelectorAll_elem (selector : string) (p : Page) (i : nat) :
  i ∈ querySelectorAll selector p ->
  exists el, elements p !! i = Some el
             /\ attached (clock p) el = true /\ matches selector el = true.
Proof.
  unfold querySelectorAll, querySelectorAllAt. intros H.
  apply findIndices_spec in H as (el & Hl & Hf).
  apply andb_prop in Hf as [Ha Hm]. eauto.
Qed.

(** Queries do not look at the inline style. *)
Lemma findIndices_go_alter (f : Element -> bool) (g : Element -> Element) (j : nat) :
  (forall el, f (g el) = f el) ->
  forall (els : list Element) (i : nat),
    findIndices_go f i (alter g j els) = findIndices_go f i els.
Proof.
  intros Hfg els. revert j. induction els as [|x els IH]; intros j i.
  - reflexivity.
  - destruct j as [|j]; simpl.
    + now rewrite Hfg.
    + change (list_alter g j els) with (alter g j els). now rewrite !IH.
Qed.

Lemma querySelectorAll_withStyle (selector : string) (p : Page)
    (g : Style -> Style) (j : nat) :
  querySelectorAll selector (withElements (alter (withStyle g) j) p)
  = querySelectorAll selector p.
Proof.
  unfold querySelectorAll, querySelectorAllAt, findIndices. simpl.
  apply findIndices_go_alter. intros el. reflexivity.
Qed.

(** *** What the steps of the runner change and record *)

Ltac run_steps :=
  unfold mbind, M_bind, bind, mret, M_ret, ret, throw, getPage, modifyPage, emit,
    storeSnapshot, getSnapshot; simpl.

Lemma keepsElements_bind {A B} (m : M A) (k : A -> M B) :
  keepsElements m -> (forall a, keepsElements (k a)) -> keepsElements (m ≫= k).
Proof.
  intros Hm Hk w. unfold mbind, M_bind, bind. specialize (Hm w).
  destruct (m w) as [[a|e] w1]; simpl in *; [rewrite Hk |]; exact Hm.
Qed.

Lemma keepsElements_waitUntil what timeout cond :
  keepsElements (waitUntil (Image := Image) what timeout cond).
Proof.
  intros w. unfold waitUntil. run_steps. destruct (firstTime _ _ _); reflexivity.
Qed.

Lemma keepsElements_page_waitForSelector selector state timeout :
  keepsElements (page_waitForSelector (Image := Image) selector state timeout).
Proof.
  intros w. unfold page_waitForSelector.
  rewrite (bind_returned getPage _ w w (page w) eq_refl).
  apply keepsElements_waitUntil.
Qed.

Lemma keepsElements_emit e : keepsElements (emit (Image := Image) e).
Proof. intros w. reflexivity. Qed.

Lemma keepsElements_screenshot target options :
  keepsElements (screenshot render target options).
Proof.
  unfold screenshot. apply keepsElements_bind; [apply keepsElements_emit |].
  intros _. destruct target as [|selector].
  - intros w. reflexivity.
  - apply keepsElements_bind; [apply keepsElements_page_waitForSelector |].
    intros _ w. run_steps. destruct (querySelectorAll selector (page w)) as [|? [|? ?]];
      reflexivity.
Qed.

Lemma keepsElements_toMatchImageSnapshot image options :
  keepsElements (toMatchImageSnapshot dissimilarity image options).
Proof.
  intros w. unfold toMatchImageSnapshot. run_steps.
  destruct (snapshots w !! _); [| reflexivity].
  destruct (Qle_bool _ _); reflexivity.
Qed.

Lemma keepsElements_expectLocator locator context browser theme options :
  keepsElements (expectLocatorToMatchStorySnapshot render dissimilarity cwd
                   locator context browser theme options).
Proof.
  unfold expectLocatorToMatchStorySnapshot.
  apply keepsElements_bind; [apply keepsElements_screenshot |].
  intros image. apply keepsElements_toMatchImageSnapshot.
Qed.

Lemma emits_bind {A B} (m : M A) (k : A -> M B) (es1 es2 : list Event) :
  emits m es1 -> (forall a, emits (k a) es2) -> emits (m ≫= k) (es1 ++ es2)%list.
Proof.
  intros Hm Hk w. unfold mbind, M_bind, bind.
  destruct (Hm w) as (k1 & He1 & Hp1 & Hr1).
  destruct (m w) as [[a|e] w1]; simpl in *.
  - rewrite (Hr1 a eq_refl) in He1.
    destruct (Hk a w1) as (k2 & He2 & Hp2 & Hr2).
    exists (es1 ++ k2)%list. split; [| split].
    + rewrite He2, He1. now rewrite <- app_assoc.
    + now apply prefix_app.
    + intros b Hb. now rewrite (Hr2 b Hb).
  - exists k1. split; [exact He1 |]. split; [| discriminate].
    now apply prefix_app_r.
Qed.

Lemma emits_silent {A} (m : M A) (es : list Event) :
  (forall w, events (snd (m w)) = events w) ->
  (forall w a, fst (m w) = Returned a -> es = []) ->
  emits m es.
Proof.
  intros Hsame Hret w. exists []. split; [| split].
  - now rewrite Hsame, app_nil_r.
  - apply prefix_nil.
  - intros a Ha. symmetry. eauto.
Qed.

Lemma emits_throw {A} (e : Error) (es : list Event) : emits (throw e : M A) es.
Proof. apply emits_silent; [reflexivity | discriminate]. Qed.

Lemma emits_ret {A} (a : A) : emits (mret a : M A) [].
Proof. apply emits_silent; reflexivity. Qed.

Lemma emits_emit (e : Event) : emits (emit (Image := Image) e) [e].
Proof.
  intros w. exists [e]. split; [reflexivity |]. split; [reflexivity | reflexivity].
Qed.

Lemma emits_modifyPage (f : Page -> Page) : emits (modifyPage (Image := Image) f) [].
Proof. apply emits_silent; reflexivity. Qed.

Lemma emits_waitUntil what timeout cond :
  emits (waitUntil (Image := Image) what timeout cond) [].
Proof.
  apply emits_silent; [| reflexivity].
  intros w. unfold waitUntil. run_steps. destruct (firstTime _ _ _); reflexivity.
Qed.

Lemma emits_page_waitForSelector selector state timeout :
  emits (page_waitForSelector (Image := Image) selector state timeout) [].
Proof.
  intros w. unfold page_waitForSelector.
  rewrite (bind_returned getPage _ w w (page w) eq_refl).
  apply emits_waitUntil.
Qed.

Lemma emits_waitForTimeout ms : emits (waitForTimeout (Image := Image) ms) [].
Proof. apply emits_silent; reflexivity. Qed.

Lemma emits_waitForPageReady : emits (waitForPageReady (Image := Image)) [].
Proof.
  intros w. unfold waitForPageReady.
  rewrite (bind_returned getPage _ w w (page w) eq_refl).
  apply emits_waitUntil.
Qed.

Lemma emits_waitForImages : emits (waitForImages (Image := Image)) [].
Proof.
  intros w. unfold waitForImages.
  rewrite (bind_returned getPage _ w w (page w) eq_refl).
  apply emits_waitUntil.
Qed.

Lemma emits_classListAdd className :
  emits (classListAdd (Image := Image) className) [ClassListAdd className].
Proof.
  apply (emits_bind _ _ [] [_]); [apply emits_modifyPage |].
  intros _. apply emits_emit.
Qed.

Lemma emits_bodySetAttribute name value :
  emits (bodySetAttribute (Image := Image) name value) [BodySetAttribute name value].
Proof.
  apply (emits_bind _ _ [] [_]); [apply emits_modifyPage |].
  intros _. apply emits_emit.
Qed.

Lemma emits_screenshot target options :
  emits (screenshot render target options) [Screenshot target options].
Proof.
  unfold screenshot. apply (emits_bind _ _ [_] []); [apply emits_emit |].
  intros _. destruct target as [|selector].
  - apply emits_silent; reflexivity.
  - apply (emits_bind _ _ [] []); [apply emits_page_waitForSelector |].
    intros _. apply emits_silent; [| reflexivity].
    intros w. run_steps.
    destruct (querySelectorAll selector (page w)) as [|? [|? ?]]; reflexivity.
Qed.

Lemma emits_toMatchImageSnapshot image options :
  emits (toMatchImageSnapshot dissimilarity image options)
        [ToMatchImageSnapshot (customSnapshotIdentifierOption options)].
Proof.
  unfold toMatchImageSnapshot. apply (emits_bind _ _ [_] []); [apply emits_emit |].
  intros _. apply emits_silent; [| reflexivity].
  intros w. run_steps. destruct (snapshots w !! _); [| reflexivity].
  destruct (Qle_bool _ _); reflexivity.
Qed.

Lemma emits_expectLocator locator context browser theme options :
  emits (expectLocatorToMatchStorySnapshot render dissimilarity cwd
           locator context browser theme options)
        [Screenshot locator (default {| omitBackground := None |} options);
         ToMatchImageSnapshot
           (customSnapshotIdentifier (context_id context) theme browser)].
Proof.
  unfold expectLocatorToMatchStorySnapshot.
  apply (emits_bind _ _ [_] [_]); [apply emits_screenshot |].
  intros image. apply emits_toMatchImageSnapshot.
Qed.

Lemma emits_check (c : SnapshotCheck) context browser theme targetSelector :
  emits (check render dissimilarity cwd c context browser theme targetSelector)
        [Screenshot
           match c with
           | FullPageSnapshot => ThePage
           | SceneSnapshot => TheLocator "main"
           | ComponentSnapshot =>
               TheLocator (default "#storybook-root" targetSelector)
           end
           match c with
           | ComponentSnapshot => {| omitBackground := Some true |}
           | _ => {| omitBackground := None |}
           end;
         ToMatchImageSnapshot
           (customSnapshotIdentifier (context_id context) theme browser)].
Proof.
  destruct c; simpl.
  - apply emits_expectLocator.
  - unfold expectStoryToMatchSceneSnapshot.
    apply (emits_bind _ _ [] [_; _]); [| intros _; apply emits_expectLocator].
    apply emits_silent; [| reflexivity].
    intros w. run_steps. destruct (querySelector _ _); reflexivity.
  - unfold expectStoryToMatchComponentSnapshot.
    apply (emits_bind _ _ [] [_; _]); [| intros _; apply emits_expectLocator].
    apply emits_silent; [| reflexivity].
    intros w. run_steps. destruct (getElementById _ _); reflexivity.
Qed.

(** The events of a verification call, in order: the marker class that
    stops animations, once; the class [posthog-3000]; then for ['light'] the
    theme attribute, the screenshot of the region of the capture mode and
    the comparison under the identifier of that theme; then the same three
    for ['dark'].  A call that fails stops somewhere in this sequence, a
    call that returns has gone through all of it, and a call whose page gets
    ready has recorded the marker class. *)
Lemma verification_trace
    (context : TestContext) (storyContext : StoryContext)
    (browser : SupportedBrowserName) (w : World) :
  let target :=
    match selectCheck storyContext with
    | FullPageSnapshot => ThePage
    | SceneSnapshot => TheLocator "main"
    | ComponentSnapshot =>
        TheLocator (default "#storybook-root" (snapshotTargetSelectorOf storyContext))
    end in
  let options :=
    match selectCheck storyContext with
    | ComponentSnapshot => {| omitBackground := Some true |}
    | _ => {| omitBackground := None |}
    end in
  let pass theme :=
    [BodySetAttribute "theme" (themeName theme);
     Screenshot target options;
     ToMatchImageSnapshot
       (customSnapshotIdentifier (context_id context) theme browser)] in
  let sequence :=
    (ClassListAdd "storybook-test-runner" :: ClassListAdd "posthog-3000"
     :: pass light ++ pass dark)%list in
  let result :=
    expectStoryToMatchSnapshot render dissimilarity cwd context storyContext browser w in
  exists k,
    events (snd result) = (events w ++ k)%list
    /\ k `prefix_of` sequence
    /\ (fst result = Returned tt -> k = sequence)
    /\ (fst (waitForPageReady w) = Returned tt ->
        exists k', k = ClassListAdd "storybook-test-runner" :: k').
Proof.
  intros target options pass sequence result.
  assert (Hrest : forall u : unit,
    emits (classListAdd "posthog-3000";;
           bodySetAttribute "theme" "light";;
           check render dissimilarity cwd (selectCheck storyContext) context browser
             light (snapshotTargetSelectorOf storyContext);;
           bodySetAttribute "theme" "dark";;
           check render dissimilarity cwd (selectCheck storyContext) context browser
             dark (snapshotTargetSelectorOf storyContext))
          (ClassListAdd "posthog-3000" :: pass light ++ pass dark)%list).
  { intros _.
    apply (emits_bind _ _ [_] (_ :: _ :: _ :: pass dark));
      [apply emits_classListAdd | intros _].
    apply (emits_bind _ _ [_] (_ :: _ :: pass dark));
      [apply emits_bodySetAttribute | intros _].
    apply (emits_bind _ _ [_; _] (pass dark)); [apply emits_check | intros _].
    apply (emits_bind _ _ [_] [_; _]); [apply emits_bodySetAttribute | intros _].
    apply emits_check. }
  assert (Hwaits : forall u : unit,
    emits ((if default true (waitForLoadersToDisappear (testOptionsOf storyContext))
            then page_waitForSelector (join "," LOADER_SELECTORS) stateDetached
                   (Some 1000%nat)
            else mret tt);;
           match waitForSelector (testOptionsOf storyContext) with
           | Some selector =>
               if decide (selector = "") then mret tt
               else page_waitForSelector selector stateVisible None
           | None => mret tt
           end;;
           waitForTimeout 400;;
           waitForImages;;
           classListAdd "posthog-3000";;
           bodySetAttribute "theme" "light";;
           check render dissimilarity cwd (selectCheck storyContext) context browser
             light (snapshotTargetSelectorOf storyContext);;
           bodySetAttribute "theme" "dark";;
           check render dissimilarity cwd (selectCheck storyContext) context browser
             dark (snapshotTargetSelectorOf storyContext))
          (ClassListAdd "posthog-3000" :: pass light ++ pass dark)%list).
  { intros _.
    apply (emits_bind _ _ [] (_ :: _)); [| intros _].
    { destruct (default true _);
        [apply emits_page_waitForSelector | apply emits_ret]. }
    apply (emits_bind _ _ [] (_ :: _)); [| intros _].
    { destruct (waitForSelector _) as [selector|]; [| apply emits_ret].
      destruct (decide (selector = ""));
        [apply emits_ret | apply emits_page_waitForSelector]. }
    apply (emits_bind _ _ [] (_ :: _)); [apply emits_waitForTimeout | intros _].
    apply (emits_bind _ _ [] (_ :: _)); [apply emits_waitForImages | intros _].
    apply Hrest. exact tt. }
  subst result. unfold expectStoryToMatchSnapshot. cbv zeta.
  destruct (emits_waitForPageReady w) as (k0 & He0 & Hp0 & _).
  apply prefix_nil_inv in Hp0. subst k0. rewrite app_nil_r in He0.
  destruct (waitForPageReady w) as [[[]|e] w1] eqn:Hready; simpl in He0.
  - rewrite (bind_returned _ _ _ _ _ Hready).
    rewrite (bind_returned (classListAdd "storybook-test-runner") _ w1
               {| page := withBody (addClass "storybook-test-runner") (page w1);
                  snapshots := snapshots w1;
                  events := (events w1 ++ [ClassListAdd "storybook-test-runner"])%list |}
               tt eq_refl).
    cbv beta.
    match goal with
    | |- context [snd (_ ?w2')] => remember w2' as w2 eqn:Hw2
    end.
    assert (Hev2 : events w2
                   = (events w1 ++ [ClassListAdd "storybook-test-runner"])%list)
      by (subst w2; reflexivity).
    clear Hw2.
    destruct (Hwaits tt w2) as (k2 & He2 & Hp2 & Hr2).
    exists (ClassListAdd "storybook-test-runner" :: k2).
    split; [| split; [| split]].
    + rewrite He2, Hev2, He0, <- app_assoc. reflexivity.
    + now apply prefix_cons.
    + intros Hret. now rewrite (Hr2 tt Hret).
    + intros _. eauto.
  - rewrite (bind_thrown _ _ _ _ _ Hready). exists []. simpl.
    split; [now rewrite app_nil_r |]. split; [apply prefix_nil |].
    split; discriminate.
Qed.

(** *** Bounded waits *)

Lemma firstTime_unfold (cond : nat -> bool) (from budget : nat) :
  firstTime cond from budget
  = if cond from then Some from
    else match budget with
         | O => None
         | S budget => firstTime cond (S from) budget
         end.
Proof. destruct budget; reflexivity. Qed.

Lemma firstTime_None (cond : nat -> bool) (budget : nat) :
  forall from,
    (forall t, (from <= t <= from + budget)%nat -> cond t = false) ->
    firstTime cond from budget = None.
Proof.
  induction budget as [|budget IH]; intros from H; rewrite firstTime_unfold;
    rewrite (H from) by lia; [reflexivity |].
  apply IH. intros t Ht. apply H. lia.
Qed.

Lemma firstTime_Some (cond : nat -> bool) (budget : nat) :
  forall from t,
    firstTime cond from budget = Some t ->
    (from <= t <= from + budget)%nat
    /\ cond t = true
    /\ forall t', (from <= t' < t)%nat -> cond t' = false.
Proof.
  induction budget as [|budget IH]; intros from t; rewrite firstTime_unfold;
    destruct (cond from) eqn:Hc; try discriminate.
  - intros [= <-]. repeat split; [lia | lia | exact Hc | intros; lia].
  - intros [= <-]. repeat split; [lia | lia | exact Hc | intros; lia].
  - intros H. apply IH in H as (Hle & Ht & Hmin).
    repeat split; [lia | lia | exact Ht |].
    intros t' Ht'. destruct (decide (t' = from)) as [-> | Hne]; [exact Hc |].
    apply Hmin. lia.
Qed.

Lemma attached_between (el : Element) (t1 t2 t : nat) :
  attached t1 el = true -> attached t2 el = true ->
  (t1 <= t <= t2)%nat -> attached t el = true.
Proof.
  unfold attached. intros H1 H2 Ht.
  apply andb_prop in H1 as [Ha1 Hd1]. apply andb_prop in H2 as [Ha2 Hd2].
  apply Nat.leb_le in Ha1. apply andb_true_intro. split.
  - apply Nat.leb_le. lia.
  - destruct (detachedAt el) as [d|]; [| reflexivity].
    apply Nat.ltb_lt in Hd2. apply Nat.ltb_lt. lia.
Qed.

(** The wait for readiness either returns at [loaderWaitStart], having
    changed the clock only, or throws a timeout. *)
Lemma waitForPageReady_outcome (w : World) :
  waitForPageReady w
  = (Returned tt,
     {| page := withClock (loaderWaitStart (page w)) (page w);
        snapshots := snapshots w; events := events w |})
  \/ exists w', waitForPageReady w = (Thrown (TimeoutError "waitForPageReady"), w')
                /\ events w' = events w.
Proof.
  unfold waitForPageReady, waitUntil. run_steps.
  destruct (firstTime _ _ _) as [t|] eqn:Hfirst.
  - left. apply firstTime_Some in Hfirst as (Hle & Hc & Hmin).
    unfold loaderWaitStart. destruct (readyAt (page w)) as [r|]; [| discriminate].
    apply Nat.leb_le in Hc.
    assert (t = Nat.max r (clock (page w))) as ->; [| reflexivity].
    destruct (decide (t = Nat.max r (clock (page w)))) as [-> | Hne];
      [reflexivity | exfalso].
    assert (Hprev : (r <=? Nat.max r (clock (page w)))%nat = false)
      by (apply Hmin; lia).
    apply Nat.leb_gt in Hprev. lia.
  - right. eexists. split; reflexivity.
Qed.

Lemma page_waitForSelector_detached_timeout (selector : string) (timeout : nat)
    (w : World) :
  (forall t, (clock (page w) <= t <= clock (page w) + timeout)%nat ->
             querySelectorAllAt t selector (elements (page w)) <> []) ->
  page_waitForSelector selector stateDetached (Some timeout) w
  = (Thrown (TimeoutError "waitForSelector"),
     {| page := withClock (clock (page w) + timeout) (page w);
        snapshots := snapshots w; events := events w |}).
Proof.
  intros H. unfold page_waitForSelector, waitUntil. run_steps.
  rewrite firstTime_None; [reflexivity |].
  intros t Ht. apply bool_decide_eq_false. now apply H.
Qed.

Lemma loader_selector_in_list (selector : string) (el : Element) :
  selector ∈ LOADER_SELECTORS ->
  matches selector el = true ->
  matches (join "," LOADER_SELECTORS) el = true.
Proof.
  intros Hin Hm. unfold matches in *.
  apply existsb_exists in Hm as (s & Hs & Hms).
  apply existsb_exists. exists s. split; [| exact Hms].
  assert (Hall : parseSelector (join "," LOADER_SELECTORS)
                 = flat_map parseSelector LOADER_SELECTORS)
    by (vm_compute; reflexivity).
  rewrite Hall. apply in_flat_map. exists selector. split; [| exact Hs].
  now apply list_elem_of_In.
Qed.

(** C6: when the loaders are waited for (the option is [true] or absent)
    and an element matching one of the loader selectors is attached when
    that wait starts and still attached 1000 ms later, the verification
    throws a timeout, having taken no screenshot. *)
Theorem loader_still_attached_times_out
    (context : TestContext) (storyContext : StoryContext)
    (browser : SupportedBrowserName) (w : World)
    (selector : string) (el : Element) :
  waitForLoadersToDisappear (testOptionsOf storyContext) <> Some false ->
  selector ∈ LOADER_SELECTORS ->
  el ∈ elements (page w) ->
  matches selector el = true ->
  attached (loaderWaitStart (page w)) el = true ->
  attached (loaderWaitStart (page w) + 1000) el = true ->
  let result :=
    expectStoryToMatchSnapshot render dissimilarity cwd context storyContext browser w in
  (exists what, fst result = Thrown (TimeoutError what))
  /\ exists k, events (snd result) = (events w ++ k)%list
               /\ forall target options, Screenshot target options ∉ k.
Proof.
  intros Hwait Hsel Hel Hmatch Hstart Hend result. subst result.
  unfold expectStoryToMatchSnapshot. cbv zeta.
  assert (default true (waitForLoadersToDisappear (testOptionsOf storyContext)) = true)
    as -> by (destruct (waitForLoadersToDisappear _) as [[|]|]; simpl; congruence).
  destruct (waitForPageReady_outcome w) as [Hready | (w' & Hready & Hev)].
  - rewrite (bind_returned _ _ _ _ _ Hready).
    rewrite (bind_returned (classListAdd "storybook-test-runner") _ _ _ tt eq_refl).
    cbv beta.
    erewrite bind_thrown.
    2: { apply page_waitForSelector_detached_timeout.
         intros t Ht. simpl in Ht. simpl. unfold querySelectorAllAt.
         apply (findIndices_nil _ _ el Hel).
         apply andb_true_intro. split.
         + apply (attached_between el _ _ t Hstart Hend). lia.
         + now apply (loader_selector_in_list selector). }
    simpl. split; [eauto |].
    exists [ClassListAdd "storybook-test-runner"]. split; [reflexivity |].
    intros target options Hin. apply list_elem_of_singleton in Hin. discriminate.
  - rewrite (bind_thrown _ _ _ _ _ Hready). simpl. split; [eauto |].
    exists []. split; [now rewrite app_nil_r |].
    intros target options Hin. inversion Hin.
Qed.

(** *** Scene mode *)

Lemma querySelector_Navigation3000 (p : Page) :
  (forall el, el ∈ elements p -> tagName el <> "navigation3000") ->
  querySelector "Navigation3000" p = None.
Proof.
  intros Hnone. unfold querySelector.
  destruct (querySelectorAll "Navigation3000" p) as [|i rest] eqn:Hq; [reflexivity |].
  assert (Hi : i ∈ querySelectorAll "Navigation3000" p) by (rewrite Hq; left).
  apply querySelectorAll_elem in Hi as (el & Hl & _ & Hm).
  apply list_elem_of_lookup_2 in Hl. apply Hnone in Hl.
  unfold matches in Hm.
  change (parseSelector "Navigation3000") with [SelType "Navigation3000"] in Hm.
  simpl in Hm. rewrite orb_false_r in Hm. apply bool_decide_eq_true in Hm.
  now destruct Hl.
Qed.

(** In a document without an element named [navigation3000] the scene check
    changes no element: it goes on to the screenshot of [main] with the page
    as it was. *)
Lemma scene_check_changes_nothing context browser theme targetSelector (w : World) :
  (forall el, el ∈ elements (page w) -> tagName el <> "navigation3000") ->
  expectStoryToMatchSceneSnapshot render dissimilarity cwd
    context browser theme targetSelector w
  = expectLocatorToMatchStorySnapshot render dissimilarity cwd
      (TheLocator "main") context browser theme None w.
Proof.
  intros Hnone. unfold expectStoryToMatchSceneSnapshot.
  erewrite bind_returned; [reflexivity |].
  rewrite (bind_returned getPage _ w w (page w) eq_refl).
  now rewrite querySelector_Navigation3000.
Qed.

(** *** Component mode *)

(** With a root element, the component check first restyles the root and
    then captures the target. *)
Lemma component_check_with_root context browser theme targetSelector
    (w : World) (rootEl : nat) :
  getElementById "storybook-root" (page w) = Some rootEl ->
  expectStoryToMatchComponentSnapshot render dissimilarity cwd
    context browser theme targetSelector w
  = expectLocatorToMatchStorySnapshot render dissimilarity cwd
      (TheLocator (default "#storybook-root" targetSelector)) context browser theme
      (Some {| omitBackground := Some true |})
      {| page :=
           withBody
             (setBackground (if decide (theme = legacy) then "transparent"
                             else "var(--bg-3000)"))
             (withElements
                (fun els =>
                   expandRoot rootEl (querySelectorAll ".Popover" (page w))
                     (alter (withStyle (setDisplay "inline-block")) rootEl els))
                (page w));
         snapshots := snapshots w;
         events := events w |}.
Proof.
  intros Hroot. unfold expectStoryToMatchComponentSnapshot. cbv zeta.
  erewrite bind_returned; [reflexivity |].
  rewrite (bind_returned getPage _ w w (page w) eq_refl). rewrite Hroot.
  run_steps. rewrite querySelectorAll_withStyle. reflexivity.
Qed.

(** C7: in component mode, when the document has no element with id
    [storybook-root], the check throws the error raised by its script,
    ["Could not find root element"], at once: the page, the stored
    snapshots and the recorded events are what they were, so no screenshot
    has been asked for in that theme pass. *)
Theorem component_root_missing
    (context : TestContext) (browser : SupportedBrowserName)
    (theme : SnapshotTheme) (targetSelector : option string) (w : World) :
  getElementById "storybook-root" (page w) = None ->
  let result :=
    expectStoryToMatchComponentSnapshot render dissimilarity cwd
      context browser theme targetSelector w in
  fst result = Thrown (JsError "Could not find root element")
  /\ snd result = w
  /\ forall target options,
       Screenshot target options ∈ events (snd result) ->
       Screenshot target options ∈ events w.
Proof.
  intros Hroot result. subst result.
  rewrite (component_check_without_root _ _ _ _ _ Hroot). simpl. auto.
Qed.

Lemma component_check_elements context browser theme targetSelector
    (w : World) (rootEl : nat) :
  getElementById "storybook-root" (page w) = Some rootEl ->
  elements (page (snd (expectStoryToMatchComponentSnapshot render dissimilarity cwd
                         context browser theme targetSelector w)))
  = expandRoot rootEl (querySelectorAll ".Popover" (page w))
      (alter (withStyle (setDisplay "inline-block")) rootEl (elements (page w))).
Proof.
  intros Hid. rewrite (component_check_with_root _ _ _ _ _ _ Hid).
  rewrite keepsElements_expectLocator. reflexivity.
Qed.

Lemma expandRoot_restyles (rootEl : nat) (popovers : list nat) :
  forall (els : list Element) (root : Element),
    els !! rootEl = Some root ->
    exists root',
      expandRoot rootEl popovers els !! rootEl = Some root'
      /\ root' = withStyle (fun _ => style root') root
      /\ display (style root') = display (style root)
      /\ forall i, i <> rootEl -> expandRoot rootEl popovers els !! i = els !! i.
Proof.
  induction popovers as [|p ps IH]; intros els root Hroot.
  - exists root. rewrite withStyle_same. auto.
  - unfold expandRoot. simpl. fold (expandRoot rootEl ps).
    destruct (els !! p) as [pop|] eqn:Hp.
    + rewrite (expandRootFor_insert _ _ _ _ _ Hroot Hp).
      set (r1 := withStyle _ root).
      destruct (IH (<[rootEl := r1]> els) r1) as (root' & Hl & Hs & Hd & Hothers).
      { apply list_lookup_insert_eq. now apply lookup_lt_Some in Hroot. }
      exists root'. split; [exact Hl |]. split; [| split].
      * rewrite Hs at 1. reflexivity.
      * rewrite Hd. subst r1. unfold expandStyle. simpl.
        repeat match goal with
               | |- context [if ?c then _ else _] => destruct c
               end; reflexivity.
      * intros i Hi. rewrite Hothers by exact Hi.
        apply list_lookup_insert_ne. congruence.
    + assert (expandRootFor rootEl p els = els) as ->.
      { unfold expandRootFor. rewrite Hroot, Hp. reflexivity. }
      eauto.
Qed.

(** An inline width or height the root has is never taken away by the
    expansion pass. *)
Lemma expandRoot_sizes_stay_set (rootEl : nat) (popovers : list nat) :
  forall (els : list Element) (root root' : Element),
    els !! rootEl = Some root ->
    expandRoot rootEl popovers els !! rootEl = Some root' ->
    (is_Some (width (style root)) -> is_Some (width (style root')))
    /\ (is_Some (height (style root)) -> is_Some (height (style root'))).
Proof.
  induction popovers as [|p ps IH]; intros els root root' Hroot Hl.
  - unfold expandRoot in Hl. simpl in Hl. assert (root' = root) as -> by congruence.
    auto.
  - unfold expandRoot in Hl. simpl in Hl. fold (expandRoot rootEl ps) in Hl.
    destruct (els !! p) as [pop|] eqn:Hp.
    + rewrite (expandRootFor_insert _ _ _ _ _ Hroot Hp) in Hl.
      set (r1 := withStyle _ root) in Hl.
      assert (Hl1 : <[rootEl := r1]> els !! rootEl = Some r1).
      { apply list_lookup_insert_eq. now apply lookup_lt_Some in Hroot. }
      destruct (IH _ r1 root' Hl1 Hl) as (Hw & Hh).
      assert (Hstep : (is_Some (width (style root)) -> is_Some (width (style r1)))
                      /\ (is_Some (height (style root))
                          -> is_Some (height (style r1)))).
      { subst r1. unfold expandStyle. simpl.
        repeat match goal with
               | |- context [if ?c then _ else _] => destruct c
               end; simpl; split; intros H; first [exact H | eexists; reflexivity]. }
      destruct Hstep as (Hw1 & Hh1). split; auto.
    + assert (Hstep : expandRootFor rootEl p els = els).
      { unfold expandRootFor. rewrite Hroot, Hp. reflexivity. }
      rewrite Hstep in Hl. exact (IH els root root' Hroot Hl).
Qed.

(** C10: in component mode with [snapshotTargetSelector] set, the element
    with id [storybook-root] is still required: without it the check throws
    and captures nothing.  With it, the check displays that element as an
    inline block and expands it for the overlays: with the root at
    non-negative coordinates, for every [.Popover] element that, as read
    once the root is an inline block, goes beyond the right (bottom) edge of
    the root without starting left of (above) it, the root element ends up
    with an inline width (height) assigned which, counted from its left
    (top) edge, reaches that edge of the overlay.  Only the inline style of
    the root element changes; every other element, the target included, stays
    as it was, and the screenshot is then asked of the overriding selector. *)
Theorem component_target_override
    (context : TestContext) (browser : SupportedBrowserName)
    (theme : SnapshotTheme) (selector : string) (w : World) :
  let result :=
    expectStoryToMatchComponentSnapshot render dissimilarity cwd
      context browser theme (Some selector) w in
  (getElementById "storybook-root" (page w) = None ->
   result = (Thrown (JsError "Could not find root element"), w))
  /\ (forall rootEl,
        getElementById "storybook-root" (page w) = Some rootEl ->
        let displayed :=
          alter (withStyle (setDisplay "inline-block")) rootEl (elements (page w)) in
        elements (page (snd result))
        = expandRoot rootEl (querySelectorAll ".Popover" (page w)) displayed
        /\ (exists root root',
              elements (page w) !! rootEl = Some root
              /\ elementId root = Some "storybook-root"
              /\ elements (page (snd result)) !! rootEl = Some root'
              /\ root' = withStyle (fun _ => style root') root
              /\ display (style root') = Some "inline-block"
              /\ ((0 <= offsetLeft root)%Z -> (0 <= offsetTop root)%Z ->
                  forall popover pop,
                    popover ∈ querySelectorAll ".Popover" (page w) ->
                    displayed !! popover = Some pop ->
                    let R :=
                      getBoundingClientRect
                        (withStyle (setDisplay "inline-block") root) in
                    let P := getBoundingClientRect pop in
                    ((DOMRect.left R <= DOMRect.left P)%Z ->
                     (DOMRect.right R < DOMRect.right P)%Z ->
                     exists v, width (style root') = Some v
                               /\ (DOMRect.right P <= offsetLeft root + v)%Z)
                    /\ ((DOMRect.top R <= DOMRect.top P)%Z ->
                        (DOMRect.bottom R < DOMRect.bottom P)%Z ->
                        exists v, height (style root') = Some v
                                  /\ (DOMRect.bottom P <= offsetTop root + v)%Z)))
        /\ (forall i, i <> rootEl ->
                      elements (page (snd result)) !! i = elements (page w) !! i)
        /\ exists k,
             k `prefix_of`
               [Screenshot (TheLocator selector) {| omitBackground := Some true |};
                ToMatchImageSnapshot
                  (customSnapshotIdentifier (context_id context) theme browser)]
             /\ events (snd result) = (events w ++ k)%list
             /\ (fst result = Returned tt -> length k = 2%nat)).
Proof.
  intros result. subst result. split.
  - apply component_check_without_root.
  - intros rootEl Hid displayed.
    rewrite (component_check_elements _ _ _ _ _ _ Hid). fold displayed.
    destruct (getElementById_Some _ _ _ Hid) as (root & Hroot & _ & Hrootid).
    set (rootD := withStyle (setDisplay "inline-block") root).
    assert (HrootD : displayed !! rootEl = Some rootD).
    { subst displayed. rewrite list_lookup_alter_eq, Hroot. reflexivity. }
    destruct (expandRoot_restyles rootEl (querySelectorAll ".Popover" (page w))
                displayed _ HrootD) as (root' & Hl & Hs & Hd & Hothers).
    split; [reflexivity |]. split; [| split].
    + exists root, root'. split; [exact Hroot |]. split; [exact Hrootid |].
      split; [exact Hl |]. split; [rewrite Hs at 1; reflexivity |].
      split; [exact Hd |].
      intros Hx Hy popover pop Hin Hpop R P.
      destruct (expandRoot_covers rootEl _ displayed rootD pop popover
                  HrootD Hx Hy Hin Hpop)
        as (root'' & Hl' & Hg & _ & Hright & Hbottom & _).
      assert (root'' = root') as -> by congruence.
      destruct (expandRoot_sizes_stay_set rootEl _ displayed rootD root' HrootD Hl)
        as (Hw & Hh).
      destruct (grown_origin _ _ Hg) as (_ & _ & Hox & Hoy).
      assert (Hcw : contentWidth root' = contentWidth root
                    /\ contentHeight root' = contentHeight root)
        by (rewrite Hs; split; reflexivity).
      destruct Hcw as (Hcw & Hch).
      cbv zeta in Hright, Hbottom.
      change (getBoundingClientRect pop) with P in Hright, Hbottom.
      change (getBoundingClientRect rootD) with R in Hright, Hbottom.
      assert (HR : DOMRect.right R
                   = (offsetLeft root + default (contentWidth root) (width (style root)))%Z
                   /\ DOMRect.bottom R
                      = (offsetTop root
                         + default (contentHeight root) (height (style root)))%Z)
        by (split; reflexivity).
      destruct HR as (HRr & HRb).
      assert (HD : width (style rootD) = width (style root)
                   /\ height (style rootD) = height (style root))
        by (split; reflexivity).
      destruct HD as (HDw & HDh).
      assert (HR' : DOMRect.right (getBoundingClientRect root')
                    = (offsetLeft root
                       + default (contentWidth root) (width (style root')))%Z
                    /\ DOMRect.bottom (getBoundingClientRect root')
                       = (offsetTop root
                          + default (contentHeight root) (height (style root')))%Z).
      { unfold getBoundingClientRect. simpl. rewrite Hox, Hoy, Hcw, Hch.
        split; reflexivity. }
      destruct HR' as (HRr' & HRb').
      clearbody R P. split.
      * intros Hleft Hover. specialize (Hright Hleft). rewrite HRr' in Hright.
        rewrite HRr in Hover.
        destruct (width (style root')) as [v|] eqn:Hv.
        -- exists v. split; [reflexivity | exact Hright].
        -- exfalso. simpl in Hright.
           destruct (width (style root)) as [u|] eqn:Hu.
           ++ destruct Hw as [? Hw]; [rewrite HDw; eauto | discriminate].
           ++ simpl in Hover. lia.
      * intros Htop Hover. specialize (Hbottom Htop). rewrite HRb' in Hbottom.
        rewrite HRb in Hover.
        destruct (height (style root')) as [v|] eqn:Hv.
        -- exists v. split; [reflexivity | exact Hbottom].
        -- exfalso. simpl in Hbottom.
           destruct (height (style root)) as [u|] eqn:Hu.
           ++ destruct Hh as [? Hh]; [rewrite HDh; eauto | discriminate].
           ++ simpl in Hover. lia.
    + intros i Hi. rewrite Hothers by exact Hi. subst displayed.
      now apply list_lookup_alter_ne.
    + rewrite (component_check_with_root _ _ _ _ _ _ Hid).
      match goal with
      | |- context [expectLocatorToMatchStorySnapshot _ _ _ ?l ?c ?b ?t ?o ?w2] =>
          destruct (emits_expectLocator l c b t o w2) as (k & He & Hp & Hr)
      end.
      exists k. split; [exact Hp |]. split; [exact He |].
      intros Hret. now rewrite (Hr tt Hret).
Qed.

End VerifierProperties.

(** ** The properties on sample pages *)

(** C1 on a sample page: the root element has the box (10, 10)-(20, 20) and
    the only [.Popover] element the box (5, 12)-(100, 18), so the overlay
    starts left of the root and ends right of it.  The component check reads
    both boxes once, assigns the root the width 100 for the right edge of the
    overlay, and then, from the same two boxes, the width 15 (= -5 + 20) for
    its left edge, which replaces the first: the root element is left with
    the inline width 15 and no inline height, while the overlay, which the
    check does not move, is 95 wide.  The screenshot is then asked of the
    root element, which as laid out here ends at 25, left of the overlay's
    right edge at 100. *)
Theorem overlay_across_root_cropped :
  let w := Sample.worldOf Sample.overlayAcross in
  let result :=
    expectStoryToMatchComponentSnapshot Sample.render Sample.onePercent ""
      Sample.context chromium light None w in
  getElementById "storybook-root" (page w) = Some 0%nat
  /\ querySelectorAll ".Popover" (page w) = [1%nat]
  /\ getBoundingClientRect <$> elements (page w) !! 0%nat
     = Some {| DOMRect.left := 10; DOMRect.top := 10;
               DOMRect.right := 20; DOMRect.bottom := 20 |}
  /\ getBoundingClientRect <$> elements (page w) !! 1%nat
     = Some {| DOMRect.left := 5; DOMRect.top := 12;
               DOMRect.right := 100; DOMRect.bottom := 18 |}
  /\ expandRootFor 0 1 (alter (withStyle (setDisplay "inline-block")) 0%nat
                          (elements (page w)))
     = elements (page (snd result))
  /\ style <$> elements (page (snd result)) !! 0%nat
     = Some {| display := Some "inline-block"; width := Some 15%Z; height := None |}
  /\ elements (page (snd result)) !! 1%nat = elements (page w) !! 1%nat
  /\ getBoundingClientRect <$> elements (page (snd result)) !! 0%nat
     = Some {| DOMRect.left := 10; DOMRect.top := 10;
               DOMRect.right := 25; DOMRect.bottom := 20 |}
  /\ fst result = Returned tt
  /\ events (snd result)
     = [Screenshot (TheLocator "#storybook-root") {| omitBackground := Some true |};
        ToMatchImageSnapshot "button--primary--light"].
Proof. vm_compute. repeat split. Qed.

(** C4 on the sample scene: the story selects the scene check, the page has
    its navigation container, of class [Navigation3000], with the inline
    style [overflow: hidden;]; after the verification that style is what it
    was, while both screenshots were asked of the [main] locator. *)
Theorem scene_navigation_overflow_not_forced :
  let w' :=
    snd (expectStoryToMatchSnapshot Sample.render Sample.onePercent ""
           Sample.context Sample.sceneStory chromium
           (Sample.worldOf Sample.scene)) in
  selectCheck Sample.sceneStory = SceneSnapshot
  /\ querySelectorAll ".Navigation3000" (page w') = [0%nat]
  /\ querySelectorAll "Navigation3000" (page w') = []
  /\ (nav ← elements (page w') !! 0%nat; attributes nav !! "style")
     = Some "overflow: hidden;"
  /\ events w'
     = [ClassListAdd "storybook-test-runner"; ClassListAdd "posthog-3000";
        BodySetAttribute "theme" "light";
        Screenshot (TheLocator "main") {| omitBackground := None |};
        ToMatchImageSnapshot "button--primary--light";
        BodySetAttribute "theme" "dark";
        Screenshot (TheLocator "main") {| omitBackground := None |};
        ToMatchImageSnapshot "button--primary--dark"].
Proof. vm_compute. repeat split. Qed.

Lemma loader_still_attached_times_out_witness :
  exists what,
    fst (expectStoryToMatchSnapshot Sample.render Sample.onePercent ""
           Sample.context Sample.defaultStory chromium
           (Sample.worldOf Sample.loading))
    = Thrown (TimeoutError what).
Proof.
  eapply (loader_still_attached_times_out Sample.render Sample.onePercent ""
            Sample.context Sample.defaultStory chromium
            (Sample.worldOf Sample.loading) ".Spinner" Sample.spinner).
  - discriminate.
  - unfold LOADER_SELECTORS. do 2 constructor.
  - unfold Sample.worldOf, Sample.pageOf, Sample.loading. simpl. do 2 constructor.
  - vm_compute. reflexivity.
  - vm_compute. reflexivity.
  - vm_compute. reflexivity.
Defined.

Example loader_still_attached_run :
  let result :=
    expectStoryToMatchSnapshot Sample.render Sample.onePercent ""
      Sample.context Sample.defaultStory chromium (Sample.worldOf Sample.loading) in
  fst result = Thrown (TimeoutError "waitForSelector")
  /\ events (snd result) = [ClassListAdd "storybook-test-runner"]
  /\ clock (page (snd result)) = 1005%nat.
Proof. vm_compute. repeat split. Qed.

Lemma component_root_missing_witness :
  fst (expectStoryToMatchComponentSnapshot Sample.render Sample.onePercent ""
         Sample.context chromium light None (Sample.worldOf Sample.scene))
  = Thrown (JsError "Could not find root element").
Proof.
  apply (component_root_missing Sample.render Sample.onePercent ""
           Sample.context chromium light None (Sample.worldOf Sample.scene)).
  vm_compute. reflexivity.
Defined.

Lemma component_target_override_witness :
  let result :=
    expectStoryToMatchComponentSnapshot Sample.render Sample.onePercent ""
      Sample.context chromium light (Some ".target")
      (Sample.worldOf SampleOverride.withOverlay) in
  exists root',
    elements (page (snd result)) !! 0%nat = Some root'
    /\ display (style root') = Some "inline-block"
    /\ (exists v, width (style root') = Some v /\ (40 <= 10 + v)%Z)
    /\ (exists v, height (style root') = Some v /\ (50 <= 10 + v)%Z)
    /\ elements (page (snd result)) !! 1%nat = Some SampleOverride.target.
Proof.
  intros result.
  destruct (component_target_override Sample.render Sample.onePercent ""
              Sample.context chromium light ".target"
              (Sample.worldOf SampleOverride.withOverlay)) as (_ & H).
  destruct (H 0%nat) as (_ & (root & root' & Hroot & _ & Hl & _ & Hd & Hcover)
                          & Hothers & _).
  { vm_compute. reflexivity. }
  assert (root = Sample.root) as ->
    by (change (Some Sample.root = Some root) in Hroot; congruence).
  destruct (Hcover ltac:(simpl; lia) ltac:(simpl; lia) 2%nat Sample.below)
    as (Hw & Hh).
  { vm_compute. left. }
  { reflexivity. }
  exists root'. split; [exact Hl |]. split; [exact Hd |].
  split; [apply Hw; simpl; lia |]. split; [apply Hh; simpl; lia |].
  apply (Hothers 1%nat). discriminate.
Defined.

Example default_story_run :
  let result :=
    expectStoryToMatchSnapshot Sample.render Sample.onePercent ""
      Sample.context Sample.defaultStory chromium
      (Sample.worldOf Sample.overlayBelow) in
  fst result = Returned tt
  /\ events (snd result)
     = [ClassListAdd "storybook-test-runner"; ClassListAdd "posthog-3000";
        BodySetAttribute "theme" "light";
        Screenshot (TheLocator "#storybook-root") {| omitBackground := Some true |};
        ToMatchImageSnapshot "button--primary--light";
        BodySetAttribute "theme" "dark";
        Screenshot (TheLocator "#storybook-root") {| omitBackground := Some true |};
        ToMatchImageSnapshot "button--primary--dark"]
  /\ bodyBackground (body (page (snd result))) = Some "var(--bg-3000)".
Proof. vm_compute. repeat split. Qed.

Example narrowed_story_run :
  let result :=
    expectStoryToMatchSnapshot Sample.render Sample.onePercent ""
      Sample.context Sample.narrowedStory chromium
      (Sample.worldOf Sample.narrowed) in
  fst result = Returned tt
  /\ (display <$> (style <$> elements (page (snd result)) !! 0%nat))
     = Some (Some "inline-block")
  /\ elements (page (snd result)) !! 1%nat = Sample.narrowed !! 1%nat
  /\ Screenshot (TheLocator ".target") {| omitBackground := Some true |}
     ∈ events (snd result).
Proof. vm_compute. repeat split. do 4 constructor. Qed.

Lemma webpackFinal_merge_witness :
  exists merged mergedResolve,
    Main.webpackFinal Sample.mainConfig Sample.storybookConfig = Some merged
    /\ Main.resolve merged = Some mergedResolve
    /\ Main.extensions mergedResolve = Some [".mjs"; ".js"; ".ts"; ".tsx"].
Proof.
  destruct (webpackFinal_merge Sample.mainConfig Sample.storybookConfig
              Sample.storybookResolve [".mjs"; ".js"] eq_refl eq_refl)
    as (merged & mergedResolve & mergedModule & kept & mergedAlias
        & Hfinal & Hresolve & _ & _ & _ & _ & Hext & _).
  exists merged, mergedResolve. auto.
Defined.

Example webpackFinal_sample_rules :
  (m ← Main.webpackFinal Sample.mainConfig Sample.storybookConfig;
   mo ← Main.module m; Main.rules mo)
  = Some [Sample.tsxRule; Sample.mdxRule].
Proof. vm_compute. reflexivity. Qed.

Example webpackFinal_without_resolve :
  Main.webpackFinal Sample.mainConfig
    {| Main.resolve := None; Main.module := None; Main.configuration := ∅ |}
  = None.
Proof. reflexivity. Qed.

(** * Further properties *)

(** ** The loader selectors *)

(** X1: the selector the loader wait is given, the join of
    [LOADER_SELECTORS], matches an element exactly when the element has one
    of the seven loader classes or the attribute [aria-busy] with value
    [true]. *)
Theorem loader_selector_matches (el : Element) :
  matches (join "," LOADER_SELECTORS) el = true
  <-> (exists c, c ∈ loaderClasses /\ c ∈ classList el)
      \/ attributes el !! "aria-busy" = Some "true".
Proof.
  unfold matches.
  assert (Hparsed : parseSelector (join "," LOADER_SELECTORS)
                    = [SelClass "ant-skeleton"; SelClass "Spinner";
                       SelClass "LemonSkeleton"; SelClass "LemonTableLoader";
                       SelClass "Toastify__toast-container";
                       SelAttr "aria-busy" "true";
                       SelClass "SessionRecordingPlayer--buffering";
                       SelClass "Lettermark--unknown"])
    by (vm_compute; reflexivity).
  rewrite Hparsed. simpl. rewrite !orb_true_iff, !bool_decide_eq_true.
  unfold loaderClasses. split.
  - intros [H | [H | [H | [H | [H | [H | [H | [H | H]]]]]]]];
      try discriminate; try (right; exact H);
      left; eexists; (split; [| exact H]); set_solver.
  - intros [(c & Hc & Hin) | H]; [| tauto].
    repeat (apply elem_of_cons in Hc as [-> | Hc]); try tauto.
    inversion Hc.
Qed.

(** ** The bundler configuration *)

(** X3: what [webpackFinal] does not merge it keeps or fills in: the other
    keys of the configuration, of its [resolve] and of its [module] are
    those of the incoming configuration; without incoming [module] or
    [rules] the rules are exactly the project-wide ones; without incoming
    [alias] the aliases are exactly the project-wide ones. *)
Theorem webpackFinal_keeps_other_keys
    (mainConfig : Main.MainConfig) (config merged : Main.Configuration) :
  Main.webpackFinal mainConfig config = Some merged ->
  Main.configuration merged = Main.configuration config
  /\ (Main.resolveOptions <$> Main.resolve merged)
     = (Main.resolveOptions <$> Main.resolve config)
  /\ (forall m, Main.module config = Some m ->
                (Main.moduleOptions <$> Main.module merged)
                = Some (Main.moduleOptions m))
  /\ ((Main.module config ≫= Main.rules) = None ->
      (Main.module merged ≫= Main.rules) = Some (Main.mainRules mainConfig))
  /\ ((Main.resolve config ≫= Main.alias) = None ->
      (Main.resolve merged ≫= Main.alias) = Some (Main.mainAlias mainConfig)).
Proof.
  unfold Main.webpackFinal.
  destruct (Main.resolve config) as [r|]; [| discriminate].
  destruct (Main.extensions r) as [exts|]; [| discriminate].
  intros [= <-]. simpl. repeat split.
  - intros m ->. reflexivity.
  - destruct (Main.module config) as [m|]; simpl.
    + intros ->. now rewrite app_nil_r.
    + intros _. now rewrite app_nil_r.
  - intros ->. simpl. now rewrite (right_id_L ∅ (∪)).
Qed.

Lemma webpackFinal_keeps_other_keys_witness :
  exists merged,
    Main.webpackFinal Sample.mainConfig Sample.storybookConfig = Some merged
    /\ Main.configuration merged = Main.configuration Sample.storybookConfig.
Proof.
  eexists. split; [reflexivity |].
  eapply (webpackFinal_keeps_other_keys Sample.mainConfig Sample.storybookConfig).
  reflexivity.
Defined.

(** ** More on the verifier *)

Section VerifierExtras.

Context {Image : Type}.
Variable render : Target -> ScreenshotOptions -> Page -> Image.
Variable dissimilarity :
  ComparisonMethod -> FailureThresholdType -> Image -> Image -> Q.
Variable cwd : string.

Local Abbreviation M := (M Image).
Local Abbreviation World := (World Image).

(** *** Rules for composing steps *)

Ltac unfold_steps :=
  unfold mbind, M_bind, bind, mret, M_ret, ret, throw, getPage, modifyPage, emit,
    storeSnapshot, getSnapshot; simpl.

Lemma keeps_bind {A B} (I : World -> Prop) (m : M A) (k : A -> M B) :
  keeps I m -> (forall a, keeps I (k a)) -> keeps I (m ≫= k).
Proof.
  intros Hm Hk w Hw. unfold mbind, M_bind, bind. specialize (Hm w Hw).
  destruct (m w) as [[a|e] w1]; simpl in *; [now apply Hk | exact Hm].
Qed.

Lemma keeps_page_only {A} (I : Page -> Prop) (m : M A) :
  (forall w, page (snd (m w)) = page w) -> keeps (fun w => I (page w)) m.
Proof. intros H w Hw. now rewrite H. Qed.

Lemma returnsWith_bind {A B} (P R Q : World -> Prop) (m : M A) (k : A -> M B) :
  returnsWith P m R -> (forall a, returnsWith R (k a) Q) ->
  returnsWith P (m ≫= k) Q.
Proof.
  intros Hm Hk w w' b HP Hrun. unfold mbind, M_bind, bind in Hrun.
  destruct (m w) as [[a|e] w1] eqn:Hmw; [| discriminate].
  eapply Hk; [| exact Hrun]. eapply Hm; eauto.
Qed.

Lemma returnsWith_keeps {A} (I : World -> Prop) (m : M A) :
  keeps I m -> returnsWith I m I.
Proof. intros H w w' a Hw Hrun. specialize (H w Hw). now rewrite Hrun in H. Qed.

Lemma returnsWith_weaken {A} (P P' Q Q' : World -> Prop) (m : M A) :
  (forall w, P' w -> P w) -> (forall w, Q w -> Q' w) ->
  returnsWith P m Q -> returnsWith P' m Q'.
Proof. intros HP HQ H w w' a Hw Hrun. apply HQ. eapply H; eauto. Qed.

(** The two ways a bounded wait ends. *)
Lemma waitUntil_outcome what timeout cond (w : World) :
  (exists t,
     firstTime (fun t => cond t (page w)) (clock (page w)) timeout = Some t
     /\ waitUntil what timeout cond w
        = (Returned tt,
           {| page := withClock t (page w); snapshots := snapshots w;
              events := events w |}))
  \/ (firstTime (fun t => cond t (page w)) (clock (page w)) timeout = None
      /\ waitUntil what timeout cond w
         = (Thrown (TimeoutError what),
            {| page := withClock (clock (page w) + timeout) (page w);
               snapshots := snapshots w; events := events w |})).
Proof.
  unfold waitUntil. unfold_steps.
  destruct (firstTime _ _ _) as [t|]; [left; eauto | right; eauto].
Qed.

(** *** The full-page check *)

(** X4: the full-page check makes no adjustment: whatever the comparison
    says, the page is what it was, and exactly one screenshot, of the whole
    page with default options, and one comparison, under the identifier of
    the theme and browser, have been asked for. *)
Theorem full_page_check_leaves_page
    (context : TestContext) (browser : SupportedBrowserName)
    (theme : SnapshotTheme) (targetSelector : option string) (w : World) :
  let result :=
    expectStoryToMatchFullPageSnapshot render dissimilarity cwd
      context browser theme targetSelector w in
  page (snd result) = page w
  /\ events (snd result)
     = (events w
        ++ [Screenshot ThePage {| omitBackground := None |};
            ToMatchImageSnapshot
              (customSnapshotIdentifier (context_id context) theme browser)])%list.
Proof.
  unfold expectStoryToMatchFullPageSnapshot, expectLocatorToMatchStorySnapshot,
    screenshot, toMatchImageSnapshot. unfold_steps.
  destruct (snapshots w !! _) as [reference|]; simpl;
    [destruct (Qle_bool _ _); simpl |];
    rewrite <- app_assoc; auto.
Qed.

(** *** The scene check *)

Lemma querySelectorAll_type_tagName (name : string) (p : Page) (i : nat) :
  i ∈ querySelectorAll "Navigation3000" p ->
  exists el, elements p !! i = Some el /\ tagName el = "navigation3000".
Proof.
  intros Hi. apply querySelectorAll_elem in Hi as (el & Hl & _ & Hm).
  exists el. split; [exact Hl |]. unfold matches in Hm.
  change (parseSelector "Navigation3000") with [SelType "Navigation3000"] in Hm.
  simpl in Hm. rewrite orb_false_r in Hm. apply bool_decide_eq_true in Hm.
  now symmetry.
Qed.

Lemma scene_check_elements context browser theme targetSelector (w : World) :
  elements (page (snd (expectStoryToMatchSceneSnapshot render dissimilarity cwd
                         context browser theme targetSelector w)))
  = match querySelector "Navigation3000" (page w) with
    | Some nav => alter (setAttribute "style" "overflow: visible;") nav
                    (elements (page w))
    | None => elements (page w)
    end.
Proof.
  unfold expectStoryToMatchSceneSnapshot.
  unfold mbind at 1, M_bind, bind.
  rewrite (bind_returned getPage _ w w (page w) eq_refl).
  destruct (querySelector "Navigation3000" (page w)) as [nav|].
  - unfold modifyPage at 1. now rewrite keepsElements_expectLocator.
  - unfold mret, M_ret, ret. now rewrite keepsElements_expectLocator.
Qed.

(** X5: the scene check changes the document in one way at most: an
    element comes out as it went in, or with its [style] attribute set to
    [overflow: visible;], and the latter only for an element whose tag name
    is [navigation3000]; an element of another tag name, whatever its
    classes, is left as it was. *)
Theorem scene_check_touches_navigation_tag_only
    (context : TestContext) (browser : SupportedBrowserName)
    (theme : SnapshotTheme) (targetSelector : option string) (w : World) :
  let w' :=
    snd (expectStoryToMatchSceneSnapshot render dissimilarity cwd
           context browser theme targetSelector w) in
  length (elements (page w')) = length (elements (page w))
  /\ forall i el,
       elements (page w) !! i = Some el ->
       (tagName el <> "navigation3000" -> elements (page w') !! i = Some el)
       /\ (elements (page w') !! i = Some el
           \/ elements (page w') !! i
              = Some (setAttribute "style" "overflow: visible;" el)).
Proof.
  intros w'. subst w'. rewrite scene_check_elements.
  destruct (querySelector "Navigation3000" (page w)) as [nav|] eqn:Hq.
  - assert (Hnav : nav ∈ querySelectorAll "Navigation3000" (page w)).
    { unfold querySelector in Hq. now apply head_elem_of. }
    apply (querySelectorAll_type_tagName "Navigation3000") in Hnav
      as (navEl & Hl & Htag).
    split; [apply length_alter |].
    intros i el Hi. destruct (decide (nav = i)) as [<- | Hne].
    + assert (el = navEl) as -> by congruence.
      rewrite list_lookup_alter_eq, Hl. simpl. split; [congruence | now right].
    + rewrite list_lookup_alter_ne by exact Hne.
      split; [intros _; exact Hi | now left].
  - split; [reflexivity |]. intros i el Hi.
    split; [intros _; exact Hi | now left].
Qed.

(** *** Steps that only let time pass *)

Lemma withClock_same (p : Page) : withClock (clock p) p = p.
Proof. now destruct p. Qed.

Lemma clockOnly_still {A} (m : M A) :
  (forall w, page (snd (m w)) = page w) -> clockOnly m.
Proof.
  intros H w. exists (clock (page w)). split; [lia |].
  now rewrite H, withClock_same.
Qed.

Lemma clockOnly_bind {A B} (m : M A) (k : A -> M B) :
  clockOnly m -> (forall a, clockOnly (k a)) -> clockOnly (m ≫= k).
Proof.
  intros Hm Hk w. unfold mbind, M_bind, bind.
  destruct (Hm w) as (t1 & Ht1 & Hp1).
  destruct (m w) as [[a|e] w1]; simpl in *; [| eauto].
  destruct (Hk a w1) as (t2 & Ht2 & Hp2). rewrite Hp1 in Ht2, Hp2. simpl in Ht2.
  exists t2. split; [lia | exact Hp2].
Qed.

Lemma clockOnly_waitUntil what timeout cond :
  clockOnly (waitUntil (Image := Image) what timeout cond).
Proof.
  intros w.
  destruct (waitUntil_outcome what timeout cond w)
    as [(t & Hfirst & ->) | (Hfirst & ->)]; simpl.
  - apply firstTime_Some in Hfirst as (Hle & _). exists t. split; [lia | reflexivity].
  - eexists. split; [| reflexivity]. lia.
Qed.

Lemma clockOnly_page_waitForSelector selector state timeout :
  clockOnly (page_waitForSelector (Image := Image) selector state timeout).
Proof.
  intros w. unfold page_waitForSelector.
  rewrite (bind_returned getPage _ w w (page w) eq_refl).
  apply clockOnly_waitUntil.
Qed.

Lemma clockOnly_waitForPageReady : clockOnly (waitForPageReady (Image := Image)).
Proof.
  intros w. unfold waitForPageReady.
  rewrite (bind_returned getPage _ w w (page w) eq_refl).
  apply clockOnly_waitUntil.
Qed.

Lemma clockOnly_waitForImages : clockOnly (waitForImages (Image := Image)).
Proof.
  intros w. unfold waitForImages.
  rewrite (bind_returned getPage _ w w (page w) eq_refl).
  apply clockOnly_waitUntil.
Qed.

Lemma clockOnly_waitForTimeout ms : clockOnly (waitForTimeout (Image := Image) ms).
Proof. intros w. exists (clock (page w) + ms)%nat. split; [lia | reflexivity]. Qed.

Lemma clockOnly_screenshot target options :
  clockOnly (screenshot render target options).
Proof.
  unfold screenshot. apply clockOnly_bind; [now apply clockOnly_still |].
  intros _. destruct target as [|selector].
  - now apply clockOnly_still.
  - apply clockOnly_bind; [apply clockOnly_page_waitForSelector |].
    intros _. apply clockOnly_still. intros w. unfold_steps.
    destruct (querySelectorAll selector (page w)) as [|? [|? ?]]; reflexivity.
Qed.

Lemma clockOnly_toMatchImageSnapshot image options :
  clockOnly (toMatchImageSnapshot dissimilarity image options).
Proof.
  apply clockOnly_still. intros w. unfold toMatchImageSnapshot. unfold_steps.
  destruct (snapshots w !! _); [| reflexivity].
  destruct (Qle_bool _ _); reflexivity.
Qed.

Lemma clockOnly_expectLocator locator context browser theme options :
  clockOnly (expectLocatorToMatchStorySnapshot render dissimilarity cwd
               locator context browser theme options).
Proof.
  unfold expectLocatorToMatchStorySnapshot.
  apply clockOnly_bind; [apply clockOnly_screenshot |].
  intros image. apply clockOnly_toMatchImageSnapshot.
Qed.

(** *** The component check *)

Lemma component_check_body_marks
    (context : TestContext) (browser : SupportedBrowserName)
    (theme : SnapshotTheme) (targetSelector : option string) (w : World) :
  let b' :=
    body (page (snd (expectStoryToMatchComponentSnapshot render dissimilarity cwd
                       context browser theme targetSelector w))) in
  bodyClassList b' = bodyClassList (body (page w))
  /\ bodyAttributes b' = bodyAttributes (body (page w)).
Proof.
  intros b'. subst b'.
  destruct (getElementById "storybook-root" (page w)) as [rootEl|] eqn:Hid.
  - rewrite (component_check_with_root render dissimilarity cwd _ _ _ _ _ _ Hid).
    match goal with
    | |- context [expectLocatorToMatchStorySnapshot _ _ _ ?l ?c ?b ?t ?o ?w2] =>
        destruct (clockOnly_expectLocator l c b t o w2) as (t' & _ & ->)
    end.
    repeat split.
  - rewrite (component_check_without_root render dissimilarity cwd _ _ _ _ _ Hid).
    repeat split.
Qed.

(** X6: the component check sets the background of the body and nothing
    else of it: with a root element the background becomes [transparent]
    for the legacy theme and [var(--bg-3000)] for any other, whatever the
    screenshot and the comparison then do; without one, the body is left as
    it was.  Classes and attributes of the body stay in both cases. *)
Theorem component_check_background
    (context : TestContext) (browser : SupportedBrowserName)
    (theme : SnapshotTheme) (targetSelector : option string) (w : World) :
  let b' :=
    body (page (snd (expectStoryToMatchComponentSnapshot render dissimilarity cwd
                       context browser theme targetSelector w))) in
  bodyClassList b' = bodyClassList (body (page w))
  /\ bodyAttributes b' = bodyAttributes (body (page w))
  /\ bodyBackground b'
     = match getElementById "storybook-root" (page w) with
       | Some _ => Some (if decide (theme = legacy) then "transparent"
                         else "var(--bg-3000)")
       | None => bodyBackground (body (page w))
       end.
Proof.
  intros b'. subst b'.
  destruct (getElementById "storybook-root" (page w)) as [rootEl|] eqn:Hid.
  - rewrite (component_check_with_root render dissimilarity cwd _ _ _ _ _ _ Hid).
    match goal with
    | |- context [expectLocatorToMatchStorySnapshot _ _ _ ?l ?c ?b ?t ?o ?w2] =>
        destruct (clockOnly_expectLocator l c b t o w2) as (t' & _ & ->)
    end.
    repeat split.
  - rewrite (component_check_without_root render dissimilarity cwd _ _ _ _ _ Hid).
    repeat split.
Qed.

Lemma expandRoot_inside (rootEl : nat) (root : Element) (popovers : list nat)
    (els : list Element) :
  els !! rootEl = Some root ->
  (forall popover pop,
     popover ∈ popovers -> els !! popover = Some pop ->
     inside (getBoundingClientRect pop) (getBoundingClientRect root)) ->
  expandRoot rootEl popovers els = els.
Proof.
  intros Hroot. induction popovers as [|p ps IH]; intros Hin; [reflexivity |].
  unfold expandRoot. simpl. fold (expandRoot rootEl ps).
  assert (Hstep : expandRootFor rootEl p els = els).
  { unfold expandRootFor. rewrite Hroot.
    destruct (els !! p) as [pop|] eqn:Hp; [| reflexivity].
    destruct (Hin p pop) as (Hl & Ht & Hr & Hb); [left | exact Hp |].
    rewrite !Z.gtb_ltb.
    rewrite (proj2 (Z.ltb_ge _ _) Hr), (proj2 (Z.ltb_ge _ _) Hb),
      (proj2 (Z.ltb_ge _ _) Ht), (proj2 (Z.ltb_ge _ _) Hl).
    reflexivity. }
  rewrite Hstep. apply IH. intros popover pop Hp. apply Hin. now right.
Qed.

(** X7: when every [.Popover] element lies within the box of the root
    element, both boxes being read in the document in which the root element
    is already displayed as an inline block, the component check changes the
    document in one way only: the root element is displayed as an inline
    block; no width or height is assigned. *)
Theorem component_check_overlays_inside
    (context : TestContext) (browser : SupportedBrowserName)
    (theme : SnapshotTheme) (targetSelector : option string) (w : World)
    (rootEl : nat) (root : Element) :
  let displayed :=
    alter (withStyle (setDisplay "inline-block")) rootEl (elements (page w)) in
  getElementById "storybook-root" (page w) = Some rootEl ->
  displayed !! rootEl = Some root ->
  (forall popover pop,
     popover ∈ querySelectorAll ".Popover" (page w) ->
     displayed !! popover = Some pop ->
     inside (getBoundingClientRect pop) (getBoundingClientRect root)) ->
  elements
    (page (snd (expectStoryToMatchComponentSnapshot render dissimilarity cwd
                  context browser theme targetSelector w)))
  = displayed
  /\ display (style root) = Some "inline-block".
Proof.
  intros displayed Hid Hroot Hinside. split.
  - rewrite (component_check_elements render dissimilarity cwd _ _ _ _ _ _ Hid).
    exact (expandRoot_inside rootEl root _ displayed Hroot Hinside).
  - subst displayed.
    destruct (getElementById_Some _ _ _ Hid) as (root0 & Hroot0 & _).
    rewrite list_lookup_alter_eq, Hroot0 in Hroot. injection Hroot as <-.
    reflexivity.
Qed.

(** X8: with the root element at non-negative coordinates and no overlay
    starting left of or above it, one expansion pass is enough: a second
    pass over the same overlays, as the dark theme pass makes after the
    light one, assigns nothing new. *)
Theorem expandRoot_second_pass
    (rootEl : nat) (root : Element) (popovers : list nat) (els : list Element) :
  els !! rootEl = Some root ->
  (0 <= offsetLeft root)%Z ->
  (0 <= offsetTop root)%Z ->
  (forall popover pop,
     popover ∈ popovers -> els !! popover = Some pop ->
     (DOMRect.left (getBoundingClientRect root)
      <= DOMRect.left (getBoundingClientRect pop))%Z
     /\ (DOMRect.top (getBoundingClientRect root)
         <= DOMRect.top (getBoundingClientRect pop))%Z) ->
  expandRoot rootEl popovers (expandRoot rootEl popovers els)
  = expandRoot rootEl popovers els.
Proof.
  intros Hroot Hx Hy Hstart.
  destruct (expandRoot_grown rootEl popovers els root Hroot Hx Hy)
    as (root' & Hl & Hg & Hothers).
  apply (expandRoot_inside rootEl root' popovers _ Hl).
  intros popover pop Hin Hpop.
  destruct (decide (popover = rootEl)) as [-> | Hne].
  - assert (pop = root') as -> by congruence. repeat split; lia.
  - rewrite Hothers in Hpop by exact Hne.
    destruct (Hstart popover pop Hin Hpop) as (Hleft & Htop).
    destruct (expandRoot_covers rootEl popovers els root pop popover
                Hroot Hx Hy Hin Hpop)
      as (root'' & Hl' & _ & _ & Hright & Hbottom & _).
    assert (root'' = root') as -> by congruence.
    destruct (grown_origin _ _ Hg) as (Hleft' & Htop' & _ & _).
    cbv zeta in Hright, Hbottom.
    repeat split; [lia | lia | now apply Hright | now apply Hbottom].
Qed.

(** *** What the steps do to the clock and to the body *)

Lemma scene_check_unfold context browser theme targetSelector (w : World) :
  expectStoryToMatchSceneSnapshot render dissimilarity cwd
    context browser theme targetSelector w
  = expectLocatorToMatchStorySnapshot render dissimilarity cwd
      (TheLocator "main") context browser theme None
      {| page :=
           withElements
             (fun els =>
                match querySelector "Navigation3000" (page w) with
                | Some nav => alter (setAttribute "style" "overflow: visible;") nav els
                | None => els
                end)
             (page w);
         snapshots := snapshots w; events := events w |}.
Proof.
  unfold expectStoryToMatchSceneSnapshot.
  unfold mbind at 1, M_bind, bind.
  rewrite (bind_returned getPage _ w w (page w) eq_refl).
  destruct (querySelector "Navigation3000" (page w)) as [nav|].
  - reflexivity.
  - destruct w as [[] ? ?]. reflexivity.
Qed.

Lemma advances_clockOnly {A} (m : M A) : clockOnly m -> advances m.
Proof. intros H w. destruct (H w) as (t & Ht & ->). exact Ht. Qed.

Lemma keepsBodyMarks_clockOnly {A} (m : M A) : clockOnly m -> keepsBodyMarks m.
Proof. intros H w. destruct (H w) as (t & Ht & ->). split; reflexivity. Qed.

Lemma advances_bind {A B} (m : M A) (k : A -> M B) :
  advances m -> (forall a, advances (k a)) -> advances (m ≫= k).
Proof.
  intros Hm Hk w. unfold mbind, M_bind, bind. specialize (Hm w).
  destruct (m w) as [[a|e] w1]; simpl in *; [| exact Hm].
  specialize (Hk a w1). lia.
Qed.

Lemma keepsBodyMarks_bind {A B} (m : M A) (k : A -> M B) :
  keepsBodyMarks m -> (forall a, keepsBodyMarks (k a)) -> keepsBodyMarks (m ≫= k).
Proof.
  intros Hm Hk w. unfold mbind, M_bind, bind. destruct (Hm w) as (Hc & Ha).
  destruct (m w) as [[a|e] w1]; simpl in *; [| now split].
  destruct (Hk a w1) as (Hc' & Ha'). split; congruence.
Qed.

Lemma advances_ret {A} (a : A) : advances (mret a : M A).
Proof. intros w. reflexivity. Qed.

Lemma keepsBodyMarks_ret {A} (a : A) : keepsBodyMarks (mret a : M A).
Proof. intros w. split; reflexivity. Qed.

Lemma advances_classListAdd className :
  advances (classListAdd (Image := Image) className).
Proof. intros w. reflexivity. Qed.

Lemma advances_bodySetAttribute name value :
  advances (bodySetAttribute (Image := Image) name value).
Proof. intros w. reflexivity. Qed.

Lemma advances_check (c : SnapshotCheck) context browser theme targetSelector :
  advances (check render dissimilarity cwd c context browser theme targetSelector).
Proof.
  intros w. destruct c; simpl.
  - apply (advances_clockOnly _ (clockOnly_expectLocator _ _ _ _ _)).
  - rewrite scene_check_unfold.
    match goal with
    | |- context [expectLocatorToMatchStorySnapshot _ _ _ ?l ?c ?b ?t ?o ?w2] =>
        apply (advances_clockOnly _ (clockOnly_expectLocator l c b t o) w2)
    end.
  - destruct (getElementById "storybook-root" (page w)) as [rootEl|] eqn:Hid.
    + rewrite (component_check_with_root render dissimilarity cwd _ _ _ _ _ _ Hid).
      match goal with
      | |- context [expectLocatorToMatchStorySnapshot _ _ _ ?l ?c ?b ?t ?o ?w2] =>
          apply (advances_clockOnly _ (clockOnly_expectLocator l c b t o) w2)
      end.
    + rewrite (component_check_without_root render dissimilarity cwd _ _ _ _ _ Hid).
      reflexivity.
Qed.

Lemma keepsBodyMarks_check (c : SnapshotCheck) context browser theme targetSelector :
  keepsBodyMarks
    (check render dissimilarity cwd c context browser theme targetSelector).
Proof.
  intros w. destruct c; simpl.
  - apply (keepsBodyMarks_clockOnly _ (clockOnly_expectLocator _ _ _ _ _)).
  - rewrite scene_check_unfold.
    match goal with
    | |- context [expectLocatorToMatchStorySnapshot _ _ _ ?l ?c ?b ?t ?o ?w2] =>
        apply (keepsBodyMarks_clockOnly _ (clockOnly_expectLocator l c b t o) w2)
    end.
  - apply component_check_body_marks.
Qed.

Lemma keeps_clock_bound {A} (n : nat) (m : M A) :
  advances m -> keeps (fun w => (n <= clock (page w))%nat) m.
Proof. intros H w Hw. specialize (H w). lia. Qed.

Lemma keeps_body_marks {A} (I : list string -> gmap string string -> Prop) (m : M A) :
  keepsBodyMarks m ->
  keeps (fun w => I (bodyClassList (body (page w))) (bodyAttributes (body (page w)))) m.
Proof. intros H w Hw. destruct (H w) as (-> & ->). exact Hw. Qed.

(** The waits between the marker class and the theme passes. *)
Lemma clockOnly_loader_wait (enabled : bool) :
  clockOnly (if enabled
             then page_waitForSelector (Image := Image)
                    (join "," LOADER_SELECTORS) stateDetached (Some 1000%nat)
             else mret tt).
Proof.
  destruct enabled; [apply clockOnly_page_waitForSelector | now apply clockOnly_still].
Qed.

Lemma clockOnly_selector_wait (selector : option string) :
  clockOnly (match selector with
             | Some selector =>
                 if decide (selector = "") then mret tt
                 else page_waitForSelector (Image := Image) selector stateVisible None
             | None => mret tt
             end).
Proof.
  destruct selector as [selector|]; [| now apply clockOnly_still].
  destruct (decide (selector = ""));
    [now apply clockOnly_still | apply clockOnly_page_waitForSelector].
Qed.

(** *** The whole verification *)

Lemma returned_run {A} (m : M A) (w : World) (a : A) :
  fst (m w) = Returned a -> m w = (Returned a, snd (m w)).
Proof. destruct (m w) as [o w']. simpl. now intros ->. Qed.

(** X9: a verification that returns has let at least 400 ms pass after
    the page was ready: the settle delay is never skipped, whatever the
    options of the story are. *)
Theorem verification_settles
    (context : TestContext) (storyContext : StoryContext)
    (browser : SupportedBrowserName) (w : World) :
  let result :=
    expectStoryToMatchSnapshot render dissimilarity cwd context storyContext browser w in
  fst result = Returned tt ->
  (loaderWaitStart (page w) + 400 <= clock (page (snd result)))%nat.
Proof.
  intros result Hret. subst result. apply returned_run in Hret.
  revert Hret. generalize (snd (expectStoryToMatchSnapshot render dissimilarity cwd
                                  context storyContext browser w)).
  intros w' Hrun.
  set (T := loaderWaitStart (page w)).
  cut (returnsWith (fun w0 => w0 = w)
         (expectStoryToMatchSnapshot render dissimilarity cwd
            context storyContext browser)
         (fun w1 => (T + 400 <= clock (page w1))%nat)).
  { intros Hall. exact (Hall w w' tt eq_refl Hrun). }
  clear w' Hrun. unfold expectStoryToMatchSnapshot. cbv zeta.
  eapply (returnsWith_bind (fun w0 => w0 = w)
            (fun w1 => (T <= clock (page w1))%nat)).
  { intros w0 w1 u -> Hready.
    destruct (waitForPageReady_outcome w) as [H | (w2 & H & _)];
      rewrite H in Hready; [| discriminate].
    injection Hready as _ <-. simpl. subst T. lia. }
  intros ?.
  eapply (returnsWith_bind _ (fun w1 => (T <= clock (page w1))%nat)).
  { apply returnsWith_keeps, keeps_clock_bound, advances_classListAdd. }
  intros ?.
  eapply (returnsWith_bind _ (fun w1 => (T <= clock (page w1))%nat)).
  { apply returnsWith_keeps, keeps_clock_bound, advances_clockOnly,
      clockOnly_loader_wait. }
  intros ?.
  eapply (returnsWith_bind _ (fun w1 => (T <= clock (page w1))%nat)).
  { apply returnsWith_keeps, keeps_clock_bound, advances_clockOnly,
      clockOnly_selector_wait. }
  intros ?.
  eapply (returnsWith_bind _ (fun w1 => (T + 400 <= clock (page w1))%nat)).
  { intros w0 w1 u Hw0 [= _ <-]. simpl. lia. }
  intros ?. apply returnsWith_keeps, keeps_clock_bound.
  apply advances_bind; [apply advances_clockOnly, clockOnly_waitForImages |].
  intros ?. apply advances_bind; [apply advances_classListAdd |].
  intros ?. apply advances_bind; [apply advances_bodySetAttribute |].
  intros ?. apply advances_bind; [apply advances_check |].
  intros ?. apply advances_bind; [apply advances_bodySetAttribute |].
  intros ?. apply advances_check.
Qed.

(** X10: a verification that returns leaves the body with the theme
    attribute [dark] and with both classes it added, [storybook-test-runner]
    and [posthog-3000]: neither theme pass removes them and the light theme
    is not restored. *)
Theorem verification_leaves_dark_theme
    (context : TestContext) (storyContext : StoryContext)
    (browser : SupportedBrowserName) (w : World) :
  let result :=
    expectStoryToMatchSnapshot render dissimilarity cwd context storyContext browser w in
  fst result = Returned tt ->
  bodyAttributes (body (page (snd result))) !! "theme" = Some "dark"
  /\ "storybook-test-runner" ∈ bodyClassList (body (page (snd result)))
  /\ "posthog-3000" ∈ bodyClassList (body (page (snd result))).
Proof.
  intros result Hret. subst result. apply returned_run in Hret.
  revert Hret. generalize (snd (expectStoryToMatchSnapshot render dissimilarity cwd
                                  context storyContext browser w)).
  intros w' Hrun.
  set (marked := fun (classes : list string) (_ : gmap string string) =>
                   "storybook-test-runner" ∈ classes).
  set (both := fun (classes : list string) (_ : gmap string string) =>
                 "storybook-test-runner" ∈ classes /\ "posthog-3000" ∈ classes).
  set (final := fun (classes : list string) (attrs : gmap string string) =>
                  attrs !! "theme" = Some "dark"
                  /\ "storybook-test-runner" ∈ classes /\ "posthog-3000" ∈ classes).
  set (on := fun (I : list string -> gmap string string -> Prop) (w0 : World) =>
               I (bodyClassList (body (page w0))) (bodyAttributes (body (page w0)))).
  cut (returnsWith (fun _ => True)
         (expectStoryToMatchSnapshot render dissimilarity cwd
            context storyContext browser)
         (on final)).
  { intros Hall. exact (Hall w w' tt I Hrun). }
  clear w' Hrun. unfold expectStoryToMatchSnapshot. cbv zeta.
  eapply (returnsWith_bind (fun _ => True) (fun _ => True)).
  { intros w0 w1 u _ _. exact I. }
  intros ?. eapply (returnsWith_bind _ (on marked)).
  { intros w0 w1 u _ [= _ <-]. unfold on, marked, addClass. simpl.
    destruct (decide _) as [Hin | Hnot]; [exact Hin | set_solver]. }
  intros ?. eapply (returnsWith_bind _ (on marked)).
  { apply returnsWith_keeps, (keeps_body_marks marked), keepsBodyMarks_clockOnly,
      clockOnly_loader_wait. }
  intros ?. eapply (returnsWith_bind _ (on marked)).
  { apply returnsWith_keeps, (keeps_body_marks marked), keepsBodyMarks_clockOnly,
      clockOnly_selector_wait. }
  intros ?. eapply (returnsWith_bind _ (on marked)).
  { apply returnsWith_keeps, (keeps_body_marks marked), keepsBodyMarks_clockOnly,
      clockOnly_waitForTimeout. }
  intros ?. eapply (returnsWith_bind _ (on marked)).
  { apply returnsWith_keeps, (keeps_body_marks marked), keepsBodyMarks_clockOnly,
      clockOnly_waitForImages. }
  intros ?. eapply (returnsWith_bind _ (on both)).
  { intros w0 w1 u Hw0 [= _ <-]. unfold on, both, marked, addClass in *. simpl.
    destruct (decide _) as [Hin | Hnot]; [now split | set_solver]. }
  intros ?. eapply (returnsWith_bind _ (on both)).
  { intros w0 w1 u Hw0 [= _ <-]. exact Hw0. }
  intros ?. eapply (returnsWith_bind _ (on both)).
  { apply returnsWith_keeps, (keeps_body_marks both), keepsBodyMarks_check. }
  intros ?. eapply (returnsWith_bind _ (on final)).
  { intros w0 w1 u Hw0 [= _ <-]. unfold on, final, both in *. simpl.
    split; [apply lookup_insert_eq | exact Hw0]. }
  intros ?. apply returnsWith_keeps, (keeps_body_marks final), keepsBodyMarks_check.
Qed.



Lemma loader_wait_outcome (enabled : bool) (w : World) :
  exists t,
    let w' := {| page := withClock t (page w); snapshots := snapshots w;
                 events := events w |} in
    let wait :=
      if enabled
      then page_waitForSelector (Image := Image)
             (join "," LOADER_SELECTORS) stateDetached (Some 1000%nat)
      else mret tt in
    wait w = (Returned tt, w')
    \/ wait w = (Thrown (TimeoutError "waitForSelector"), w').
Proof.
  destruct enabled.
  - unfold page_waitForSelector.
    rewrite (bind_returned getPage _ w w (page w) eq_refl).
    match goal with
    | |- context [waitUntil ?what ?timeout ?cond w] =>
        destruct (waitUntil_outcome what timeout cond w)
          as [(t & _ & ->) | (_ & ->)]
    end; eexists; [left | right]; reflexivity.
  - exists (clock (page w)). left. rewrite withClock_same.
    destruct w. reflexivity.
Qed.

(** The selector of the loader wait is a supported one; a compound selector
    or a list with a space after the comma is not. *)
Example supported_selectors :
  supportedSelector (join "," LOADER_SELECTORS) = true
  /\ supportedSelector ".chart" = true
  /\ supportedSelector "div.chart" = false
  /\ supportedSelector ".graph, .chart" = false
  /\ supportedSelector "" = false.
Proof. vm_compute. repeat split. Qed.


(** *** The hook after a visit *)

(** X12: in a browser that is not among the story's [snapshotBrowsers]
    (by default, any browser but chromium) [postVisit] takes no snapshot:
    it returns having set the default timeout and nothing else; no event is
    recorded and the document is left alone. *)
Theorem postVisit_other_browser
    (context : TestContext) (storyContext : StoryContext)
    (currentBrowser : SupportedBrowserName) (w : World) :
  currentBrowser ∉ default [chromium] (snapshotBrowsers (testOptionsOf storyContext)) ->
  postVisit render dissimilarity cwd context storyContext currentBrowser w
  = (Returned tt,
     {| page := withDefaultTimeout PLAYWRIGHT_TIMEOUT_MS (page w);
        snapshots := snapshots w; events := events w |}).
Proof.
  intros Hnot. unfold postVisit. cbv zeta.
  rewrite (bind_returned (modifyPage (withDefaultTimeout PLAYWRIGHT_TIMEOUT_MS))
             _ w _ tt eq_refl).
  cbv beta. destruct (decide _) as [Hin | _]; [now destruct Hnot | reflexivity].
Qed.

End VerifierExtras.

Section VerifierImages.

Context {Image : Type}.
Variable render : Target -> ScreenshotOptions -> Page -> Image.
Variable dissimilarity :
  ComparisonMethod -> FailureThresholdType -> Image -> Image -> Q.
Variable cwd : string.

Local Abbreviation M := (M Image).
Local Abbreviation World := (World Image).

Lemma selector_wait_outcome (selector : option string) (w : World) :
  exists t,
    let w' := {| page := withClock t (page w); snapshots := snapshots w;
                 events := events w |} in
    let wait :=
      match selector with
      | Some selector =>
          if decide (selector = "") then mret tt
          else page_waitForSelector (Image := Image) selector stateVisible None
      | None => mret tt
      end in
    wait w = (Returned tt, w')
    \/ wait w = (Thrown (TimeoutError "waitForSelector"), w').
Proof.
  assert (Hstill : (Returned tt, w)
                   = (Returned tt,
                      {| page := withClock (clock (page w)) (page w);
                         snapshots := snapshots w; events := events w |})).
  { rewrite withClock_same. now destruct w. }
  destruct selector as [selector|];
    [| exists (clock (page w)); left; exact Hstill].
  destruct (decide (selector = ""));
    [exists (clock (page w)); left; exact Hstill |].
  destruct (waitUntil_outcome "waitForSelector"
              (default (defaultTimeout (page w)) None)
              (fun t p =>
                 bool_decide (querySelectorAllAt t selector (elements p) <> []))
              w)
    as [(t & _ & Hrun) | (_ & Hrun)]; eexists; [left | right];
    cbv zeta; unfold page_waitForSelector;
    rewrite (bind_returned getPage _ w w (page w) eq_refl); exact Hrun.
Qed.

Lemma waitForImages_never_complete (w : World) (img : Element) :
  img ∈ elements (page w) ->
  tagName img = "img" ->
  complete img = None ->
  (forall t, attached t img = true) ->
  waitForImages w
  = (Thrown (TimeoutError "waitForFunction"),
     {| page := withClock (clock (page w) + defaultTimeout (page w)) (page w);
        snapshots := snapshots w; events := events w |}).
Proof.
  intros Hin Htag Hcomplete Hattached. unfold waitForImages.
  rewrite (bind_returned getPage _ w w (page w) eq_refl).
  match goal with
  | |- waitUntil ?what ?timeout ?cond w = _ =>
      destruct (waitUntil_outcome what timeout cond w)
        as [(t & Hfirst & _) | (_ & Hrun)]; [exfalso | exact Hrun]
  end.
  apply firstTime_Some in Hfirst as (_ & Hcond & _).
  rewrite forallb_forall in Hcond.
  specialize (Hcond img (proj1 (list_elem_of_In _ _) Hin)).
  rewrite Hattached, Hcomplete in Hcond. unfold matches in Hcond.
  change (parseSelector "img") with [SelType "img"] in Hcond.
  simpl in Hcond. rewrite Htag in Hcond.
  rewrite bool_decide_eq_true_2 in Hcond by reflexivity. discriminate.
Qed.

(** X14: when an [img] element stays in the document and never reports
    that it has loaded, the verification throws a timeout and takes no
    screenshot; at most the marker class has been added. *)
Theorem image_never_complete_times_out
    (context : TestContext) (storyContext : StoryContext)
    (browser : SupportedBrowserName) (w : World) (img : Element) :
  img ∈ elements (page w) ->
  tagName img = "img" ->
  complete img = None ->
  (forall t, attached t img = true) ->
  let result :=
    expectStoryToMatchSnapshot render dissimilarity cwd context storyContext browser w in
  (exists what, fst result = Thrown (TimeoutError what))
  /\ (events (snd result) = events w
      \/ events (snd result)
         = (events w ++ [ClassListAdd "storybook-test-runner"])%list).
Proof.
  intros Hin Htag Hcomplete Hattached result. subst result.
  unfold expectStoryToMatchSnapshot. cbv zeta.
  destruct (waitForPageReady_outcome w) as [Hready | (w1 & Hready & Hev)].
  - rewrite (bind_returned _ _ _ _ _ Hready).
    rewrite (bind_returned (classListAdd "storybook-test-runner") _ _ _ tt eq_refl).
    cbv beta.
    match goal with
    | |- context [(if ?enabled then _ else _) ≫= _] =>
        match goal with
        | |- context [snd (_ ?w2)] =>
            destruct (loader_wait_outcome enabled w2) as (t & [Hwait | Hwait])
        end
    end; cbv zeta in Hwait.
    + rewrite (bind_returned _ _ _ _ _ Hwait). cbv beta.
      match goal with
      | |- context [snd ((match ?selector with Some _ => _ | None => _ end ≫= _) ?w3)] =>
          destruct (selector_wait_outcome selector w3) as (t' & [Hsel | Hsel])
      end; cbv zeta in Hsel.
      * rewrite (bind_returned _ _ _ _ _ Hsel). cbv beta.
        erewrite (bind_returned (waitForTimeout 400)) by reflexivity.
        erewrite bind_thrown
          by (apply (waitForImages_never_complete _ img); assumption).
        simpl. split; [eauto | now right].
      * rewrite (bind_thrown _ _ _ _ _ Hsel). simpl. split; [eauto | now right].
    + rewrite (bind_thrown _ _ _ _ _ Hwait). simpl. split; [eauto | now right].
  - rewrite (bind_thrown _ _ _ _ _ Hready). simpl. split; [eauto | now left].
Qed.

End VerifierImages.

(** ** The further properties on sample pages *)

Lemma component_check_overlays_inside_witness :
  elements
    (page (snd (expectStoryToMatchComponentSnapshot Sample.render
                  Sample.onePercent "" Sample.context chromium light None
                  (Sample.worldOf SampleExtras.overlayWithin))))
  = alter (withStyle (setDisplay "inline-block")) 0%nat SampleExtras.overlayWithin.
Proof.
  apply (component_check_overlays_inside Sample.render Sample.onePercent ""
           Sample.context chromium light None
           (Sample.worldOf SampleExtras.overlayWithin) 0%nat
           (withStyle (setDisplay "inline-block") Sample.root)).
  - vm_compute. reflexivity.
  - reflexivity.
  - intros popover pop Hin Hpop.
    assert (popover = 1%nat) as ->.
    { vm_compute in Hin. apply list_elem_of_singleton in Hin. exact Hin. }
    injection Hpop as <-. unfold inside. simpl. lia.
Defined.

Lemma expandRoot_second_pass_witness :
  expandRoot 0 [1%nat] (expandRoot 0 [1%nat] Sample.overlayBelow)
  = expandRoot 0 [1%nat] Sample.overlayBelow.
Proof.
  apply (expandRoot_second_pass 0 Sample.root [1%nat] Sample.overlayBelow).
  - reflexivity.
  - simpl. lia.
  - simpl. lia.
  - intros popover pop Hin Hpop. apply list_elem_of_singleton in Hin. subst popover.
    injection Hpop as <-. simpl. lia.
Defined.

Lemma verification_settles_witness :
  (405 <= clock
            (page (snd (expectStoryToMatchSnapshot Sample.render Sample.onePercent
                          "" Sample.context Sample.defaultStory chromium
                          (Sample.worldOf Sample.overlayBelow)))))%nat.
Proof.
  apply (verification_settles Sample.render Sample.onePercent ""
           Sample.context Sample.defaultStory chromium
           (Sample.worldOf Sample.overlayBelow)).
  vm_compute. reflexivity.
Defined.

Lemma verification_leaves_dark_theme_witness :
  bodyAttributes
    (body (page (snd (expectStoryToMatchSnapshot Sample.render Sample.onePercent
                        "" Sample.context Sample.defaultStory chromium
                        (Sample.worldOf Sample.overlayBelow)))))
    !! "theme" = Some "dark".
Proof.
  apply (verification_leaves_dark_theme Sample.render Sample.onePercent ""
           Sample.context Sample.defaultStory chromium
           (Sample.worldOf Sample.overlayBelow)).
  vm_compute. reflexivity.
Defined.


Lemma postVisit_other_browser_witness :
  postVisit Sample.render Sample.onePercent "" Sample.context Sample.defaultStory
    webkit (Sample.worldOf Sample.overlayBelow)
  = (Returned tt,
     {| page := withDefaultTimeout PLAYWRIGHT_TIMEOUT_MS
                  (page (Sample.worldOf Sample.overlayBelow));
        snapshots := ∅; events := [] |}).
Proof.
  apply (postVisit_other_browser Sample.render Sample.onePercent ""
           Sample.context Sample.defaultStory webkit
           (Sample.worldOf Sample.overlayBelow)).
  simpl. intros Hin. apply list_elem_of_singleton in Hin. discriminate.
Defined.

Lemma image_never_complete_times_out_witness :
  exists what,
    fst (expectStoryToMatchSnapshot Sample.render Sample.onePercent ""
           Sample.context Sample.defaultStory chromium
           (Sample.worldOf SampleExtras.withPendingImage))
    = Thrown (TimeoutError what).
Proof.
  apply (image_never_complete_times_out Sample.render Sample.onePercent ""
           Sample.context Sample.defaultStory chromium
           (Sample.worldOf SampleExtras.withPendingImage) SampleExtras.pending).
  - simpl. unfold SampleExtras.withPendingImage. right. left.
  - reflexivity.
  - reflexivity.
  - intros t. reflexivity.
Defined.

(** * The marker class and the two theme passes *)

Section VerifierPasses.

Context {Image : Type}.
Variable render : Target -> ScreenshotOptions -> Page -> Image.
Variable dissimilarity :
  ComparisonMethod -> FailureThresholdType -> Image -> Image -> Q.
Variable cwd : string.

Local Abbreviation M := (M Image).
Local Abbreviation World := (World Image).

(** What follows the addition of the marker class: either one of the waits
    times out, and nothing but the clock has changed, or the class
    [posthog-3000] and the theme ['light'] are set and the two passes
    start. *)
Lemma verification_after_marker
    (context : TestContext) (storyContext : StoryContext)
    (browser : SupportedBrowserName) (w : World) :
  let runCheck theme :=
    check render dissimilarity cwd (selectCheck storyContext) context browser theme
      (snapshotTargetSelectorOf storyContext) in
  let rest : M unit :=
    (if default true (waitForLoadersToDisappear (testOptionsOf storyContext))
     then page_waitForSelector (join "," LOADER_SELECTORS) stateDetached (Some 1000%nat)
     else mret tt);;
    match waitForSelector (testOptionsOf storyContext) with
    | Some selector =>
        if decide (selector = "") then mret tt
        else page_waitForSelector selector stateVisible None
    | None => mret tt
    end;;
    waitForTimeout 400;;
    waitForImages;;
    classListAdd "posthog-3000";;
    bodySetAttribute "theme" "light";;
    runCheck light;;
    bodySetAttribute "theme" "dark";;
    runCheck dark in
  (exists what t,
     rest w = (Thrown (TimeoutError what),
               {| page := withClock t (page w); snapshots := snapshots w;
                  events := events w |}))
  \/ exists t,
       rest w
       = (runCheck light;; bodySetAttribute "theme" "dark";; runCheck dark)
           {| page := withBody (setBodyAttribute "theme" "light")
                        (withBody (addClass "posthog-3000") (withClock t (page w)));
              snapshots := snapshots w;
              events := ((events w ++ [ClassListAdd "posthog-3000"])
                         ++ [BodySetAttribute "theme" "light"])%list |}.
Proof.
  intros runCheck rest. subst rest.
  destruct (loader_wait_outcome
              (default true (waitForLoadersToDisappear (testOptionsOf storyContext))) w)
    as (t1 & [H1 | H1]); cbv zeta in H1.
  2: { left. exists "waitForSelector", t1.
       rewrite (bind_thrown _ _ _ _ _ H1). reflexivity. }
  rewrite (bind_returned _ _ _ _ _ H1). cbv beta.
  match goal with
  | |- context [_ ≫= _] =>
      match type of H1 with
      | _ = (_, ?w1) =>
          destruct (selector_wait_outcome
                      (waitForSelector (testOptionsOf storyContext)) w1)
            as (t2 & [H2 | H2])
      end
  end; cbv zeta in H2.
  2: { left. exists "waitForSelector", t2.
       rewrite (bind_thrown _ _ _ _ _ H2). reflexivity. }
  rewrite (bind_returned _ _ _ _ _ H2). cbv beta.
  match goal with
  | |- context [(waitForTimeout 400 ≫= _) ?w2] =>
      rewrite (bind_returned (waitForTimeout 400) _ w2 _ tt eq_refl)
  end.
  cbv beta. unfold waitForImages.
  match goal with
  | |- context [((getPage ≫= ?k) ≫= _) ?w3] =>
      destruct (waitUntil_outcome "waitForFunction" (defaultTimeout (page w3))
                  (fun t p =>
                     forallb
                       (fun el =>
                          negb (attached t el && matches "img" el)
                          || match complete el with
                             | Some c => (c <=? t)%nat
                             | None => false
                             end)
                       (elements p))
                  w3)
        as [(t3 & _ & H3) | (_ & H3)];
      assert (H3' : (getPage ≫= k) w3 = waitUntil "waitForFunction"
                      (defaultTimeout (page w3))
                      (fun t p =>
                         forallb
                           (fun el =>
                              negb (attached t el && matches "img" el)
                              || match complete el with
                                 | Some c => (c <=? t)%nat
                                 | None => false
                                 end)
                           (elements p))
                      w3) by reflexivity;
      rewrite H3 in H3'
  end.
  2: { left. eexists. eexists. rewrite (bind_thrown _ _ _ _ _ H3'). reflexivity. }
  rewrite (bind_returned _ _ _ _ _ H3'). cbv beta.
  match goal with
  | |- context [(classListAdd "posthog-3000" ≫= _) ?w4] =>
      rewrite (bind_returned (classListAdd "posthog-3000") _ w4 _ tt eq_refl)
  end.
  cbv beta.
  match goal with
  | |- context [(bodySetAttribute "theme" "light" ≫= _) ?w5] =>
      rewrite (bind_returned (bodySetAttribute "theme" "light") _ w5 _ tt eq_refl)
  end.
  cbv beta. right. exists t3. reflexivity.
Qed.

Lemma addClass_added (c : string) (b : Body) : c ∈ bodyClassList (addClass c b).
Proof.
  unfold addClass. cbn. destruct (decide (c ∈ bodyClassList b)); [assumption |].
  apply elem_of_app. right. left.
Qed.

Lemma addClass_kept (c c' : string) (b : Body) :
  c' ∈ bodyClassList b -> c' ∈ bodyClassList (addClass c b).
Proof.
  intros H. unfold addClass. cbn.
  destruct (decide (c ∈ bodyClassList b)); [assumption |].
  apply elem_of_app. now left.
Qed.

Lemma addClass_new (c : string) (b : Body) :
  c ∉ bodyClassList b -> bodyClassList (addClass c b) = (bodyClassList b ++ [c])%list.
Proof.
  intros H. unfold addClass. cbn.
  destruct (decide (c ∈ bodyClassList b)); [contradiction | reflexivity].
Qed.

(** C8, for the calls whose wait for the page returns.  The call to
    [classList.add] for the marker class [storybook-test-runner] is recorded
    exactly once, first, and what follows is a prefix of: the class
    [posthog-3000], then the theme attribute, the screenshot and the
    comparison for ['light'], then the same three for ['dark']; a call that
    returns has gone through all of it.  The body carries the marker class
    when the call ends, however it ends.  Either a wait before the passes
    times out, with the marker the only event, or the passes start in a
    world [wL] whose body has both classes (appended once to the classes it
    had, when it had neither) and the theme attribute ['light'], with the
    elements of the document as they were; the rest of the call is the check
    run there for ['light'] and, only when that returns, in the world it
    leaves, the theme attribute set to ['dark'], which keeps the classes,
    and then the check for ['dark'], whose outcome is that of the call. *)
Theorem theme_passes_in_order
    (context : TestContext) (storyContext : StoryContext)
    (browser : SupportedBrowserName) (w w1 : World) :
  waitForPageReady w = (Returned tt, w1) ->
  let marker := ClassListAdd "storybook-test-runner" in
  let target :=
    match selectCheck storyContext with
    | FullPageSnapshot => ThePage
    | SceneSnapshot => TheLocator "main"
    | ComponentSnapshot =>
        TheLocator (default "#storybook-root" (snapshotTargetSelectorOf storyContext))
    end in
  let options :=
    match selectCheck storyContext with
    | ComponentSnapshot => {| omitBackground := Some true |}
    | _ => {| omitBackground := None |}
    end in
  let pass theme :=
    [BodySetAttribute "theme" (themeName theme);
     Screenshot target options;
     ToMatchImageSnapshot
       (customSnapshotIdentifier (context_id context) theme browser)] in
  let runCheck theme :=
    check render dissimilarity cwd (selectCheck storyContext) context browser theme
      (snapshotTargetSelectorOf storyContext) in
  let result :=
    expectStoryToMatchSnapshot render dissimilarity cwd context storyContext browser w in
  let old := bodyClassList (body (page w)) in
  (exists k,
     events (snd result) = (events w ++ marker :: k)%list
     /\ (marker ∉ k)
     /\ k `prefix_of` (ClassListAdd "posthog-3000" :: pass light ++ pass dark)
     /\ (fst result = Returned tt ->
         k = (ClassListAdd "posthog-3000" :: pass light ++ pass dark)%list))
  /\ "storybook-test-runner" ∈ bodyClassList (body (page (snd result)))
  /\ ((exists what,
         fst result = Thrown (TimeoutError what)
         /\ events (snd result) = (events w ++ [marker])%list)
      \/ exists wL,
           events wL
           = (events w ++ [marker; ClassListAdd "posthog-3000";
                           BodySetAttribute "theme" "light"])%list
           /\ elements (page wL) = elements (page w)
           /\ "storybook-test-runner" ∈ bodyClassList (body (page wL))
           /\ "posthog-3000" ∈ bodyClassList (body (page wL))
           /\ ("storybook-test-runner" ∉ old -> "posthog-3000" ∉ old ->
               bodyClassList (body (page wL))
               = (old ++ ["storybook-test-runner"; "posthog-3000"])%list)
           /\ bodyAttributes (body (page wL))
              = <["theme" := "light"]> (bodyAttributes (body (page w)))
           /\ match runCheck light wL with
              | (Thrown e, wL') => result = (Thrown e, wL')
              | (Returned _, wL') =>
                  exists wD,
                    events wD = (events wL' ++ [BodySetAttribute "theme" "dark"])%list
                    /\ bodyAttributes (body (page wD))
                       = <["theme" := "dark"]> (bodyAttributes (body (page wL')))
                    /\ bodyClassList (body (page wD)) = bodyClassList (body (page wL))
                    /\ elements (page wD) = elements (page wL')
                    /\ result = runCheck dark wD
              end).
Proof.
  intros Hready marker target options pass runCheck result old.
  split.
  { destruct (verification_trace render dissimilarity cwd context storyContext
                browser w) as (k & Hev & Hpre & Hret & Hmark).
    destruct Hmark as (k' & ->); [rewrite Hready; reflexivity |].
    exists k'. split; [exact Hev |].
    apply prefix_cons_inv_2 in Hpre. split; [| split].
    - intros Hin. destruct Hpre as (rest & Hrest).
      assert (Hall : marker ∈ (k' ++ rest)%list) by (apply elem_of_app; now left).
      rewrite <- Hrest in Hall. subst marker. simpl in Hall.
      repeat (apply elem_of_cons in Hall as [Hall | Hall]; [discriminate Hall |]).
      inversion Hall.
    - exact Hpre.
    - intros Hr. specialize (Hret Hr). now injection Hret. }
  assert (Hw1 : w1 = {| page := withClock (loaderWaitStart (page w)) (page w);
                        snapshots := snapshots w; events := events w |}).
  { destruct (waitForPageReady_outcome w) as [H | (w' & H & _)];
      rewrite H in Hready; [now injection Hready | discriminate]. }
  set (w2 := {| page := withBody (addClass "storybook-test-runner") (page w1);
                snapshots := snapshots w1;
                events := (events w1 ++ [marker])%list |}).
  destruct (verification_after_marker context storyContext browser w2)
    as [(what & t & Hrun) | (t & Hrun)]; cbv zeta in Hrun.
  - assert (Hres : result = (Thrown (TimeoutError what),
                             {| page := withClock t (page w2);
                                snapshots := snapshots w2; events := events w2 |})).
    { etransitivity; [| exact Hrun].
      subst result. unfold expectStoryToMatchSnapshot. cbv zeta.
      rewrite (bind_returned _ _ _ _ _ Hready).
      rewrite (bind_returned (classListAdd "storybook-test-runner") _ w1 _ tt eq_refl).
      reflexivity. }
    split.
    { assert (Hcls : bodyClassList (body (page (snd result)))
                     = bodyClassList
                         (addClass "storybook-test-runner" (body (page w))))
        by (rewrite Hres; subst w2; rewrite Hw1; reflexivity).
      rewrite Hcls. apply addClass_added. }
    left. exists what. rewrite Hres. split; [reflexivity |].
    subst w2. rewrite Hw1. reflexivity.
  - match type of Hrun with
    | _ = _ ?wL0 => set (wL := wL0) in *
    end.
    assert (Hres : result
                   = (runCheck light;; bodySetAttribute "theme" "dark";;
                      runCheck dark) wL).
    { etransitivity; [| exact Hrun].
      subst result. unfold expectStoryToMatchSnapshot. cbv zeta.
      rewrite (bind_returned _ _ _ _ _ Hready).
      rewrite (bind_returned (classListAdd "storybook-test-runner") _ w1 _ tt eq_refl).
      reflexivity. }
    assert (HclsL : bodyClassList (body (page wL))
                    = bodyClassList
                        (addClass "posthog-3000"
                           (addClass "storybook-test-runner" (body (page w)))))
      by (subst wL w2; rewrite Hw1; reflexivity).
    assert (HwL : "storybook-test-runner" ∈ bodyClassList (body (page wL))
                  /\ "posthog-3000" ∈ bodyClassList (body (page wL))).
    { rewrite HclsL. split; [apply addClass_kept |]; apply addClass_added. }
    destruct HwL as (HwLm & HwLp).
    destruct (keepsBodyMarks_check render dissimilarity cwd
                (selectCheck storyContext) context browser light
                (snapshotTargetSelectorOf storyContext) wL) as (HcL & _).
    fold (runCheck light) in HcL.
    assert (Hlater :
      match runCheck light wL with
      | (Thrown e, wL') => result = (Thrown e, wL')
      | (Returned _, wL') =>
          exists wD,
            events wD = (events wL' ++ [BodySetAttribute "theme" "dark"])%list
            /\ bodyAttributes (body (page wD))
               = <["theme" := "dark"]> (bodyAttributes (body (page wL')))
            /\ bodyClassList (body (page wD)) = bodyClassList (body (page wL))
            /\ elements (page wD) = elements (page wL')
            /\ result = runCheck dark wD
      end
      /\ "storybook-test-runner" ∈ bodyClassList (body (page (snd result)))).
    { destruct (runCheck light wL) as [[u | e] wL'] eqn:HL; cbn [snd] in HcL.
      - rewrite (bind_returned _ _ _ _ _ HL) in Hres. cbv beta in Hres.
        rewrite (bind_returned (bodySetAttribute "theme" "dark") _ wL' _ tt eq_refl)
          in Hres.
        cbv beta in Hres.
        match type of Hres with
        | _ = _ ?wD0 => set (wD := wD0) in *
        end.
        assert (HcD : bodyClassList (body (page wD)) = bodyClassList (body (page wL)))
          by (rewrite <- HcL; reflexivity).
        split.
        + exists wD. repeat split; try reflexivity; assumption.
        + destruct (keepsBodyMarks_check render dissimilarity cwd
                      (selectCheck storyContext) context browser dark
                      (snapshotTargetSelectorOf storyContext) wD) as (HcD' & _).
          fold (runCheck dark) in HcD'. rewrite Hres, HcD', HcD. exact HwLm.
      - rewrite (bind_thrown _ _ _ _ _ HL) in Hres. split; [exact Hres |].
        rewrite Hres. simpl. rewrite HcL. exact HwLm. }
    destruct Hlater as (Hlater & Hfinal).
    split; [exact Hfinal |]. right. exists wL.
    split; [subst wL w2; simpl; rewrite Hw1; simpl; now rewrite <- !app_assoc |].
    split; [subst wL w2; simpl; now rewrite Hw1 |].
    split; [exact HwLm |]. split; [exact HwLp |].
    split.
    { intros Hm Hp. rewrite HclsL. fold old in Hm, Hp |- *.
      rewrite addClass_new.
      - rewrite addClass_new by exact Hm. now rewrite <- app_assoc.
      - rewrite addClass_new by exact Hm. intros Hin.
        apply elem_of_app in Hin as [Hin | Hin]; [contradiction |].
        apply list_elem_of_singleton in Hin. discriminate. }
    split; [subst wL w2; simpl; now rewrite Hw1 |].
    exact Hlater.
Qed.

End VerifierPasses.

(** ** The passes on sample pages *)

(** C8 as stated fails for a call whose page does not become ready: the
    wait for the page, which comes before the marker class is added, times
    out; the call ends there, with no class added to the body, no theme
    attribute set and no screenshot asked for.  The same holds when the call
    is made by [postVisit], in a browser that takes snapshots. *)
Lemma marker_not_applied_when_page_not_ready :
  let result :=
    expectStoryToMatchSnapshot Sample.render Sample.onePercent ""
      Sample.context Sample.defaultStory chromium SampleExtras.neverReady in
  let visit :=
    postVisit Sample.render Sample.onePercent ""
      Sample.context Sample.defaultStory chromium SampleExtras.neverReady in
  (exists what, fst result = Thrown (TimeoutError what))
  /\ events (snd result) = []
  /\ bodyClassList (body (page (snd result))) = []
  /\ bodyAttributes (body (page (snd result))) !! "theme" = None
  /\ (exists what, fst visit = Thrown (TimeoutError what))
  /\ events (snd visit) = []
  /\ bodyClassList (body (page (snd visit))) = [].
Proof.
  vm_compute. repeat split; eexists; reflexivity.
Qed.

Lemma theme_passes_in_order_witness :
  let result :=
    expectStoryToMatchSnapshot Sample.render Sample.onePercent ""
      Sample.context Sample.defaultStory chromium
      (Sample.worldOf Sample.overlayBelow) in
  "storybook-test-runner" ∈ bodyClassList (body (page (snd result)))
  /\ exists k,
       events (snd result) = ClassListAdd "storybook-test-runner" :: k
       /\ ClassListAdd "storybook-test-runner" ∉ k.
Proof.
  intros result.
  destruct (theme_passes_in_order Sample.render Sample.onePercent ""
              Sample.context Sample.defaultStory chromium
              (Sample.worldOf Sample.overlayBelow)
              (snd (waitForPageReady (Sample.worldOf Sample.overlayBelow))))
    as ((k & Hev & Hnot & _) & Hm & _).
  { vm_compute. reflexivity. }
  split; [exact Hm |]. exists k. split; [exact Hev | exact Hnot].
Defined.
